(** * ExchangePage: pricing, slippage bounds, swap-type classification and
      the swap-state reducer

    A shallow embedding of the pure core of
    [src/components/ExchangePage/index.jsx] together with the part of the
    component that recomputes the dependent value (the [useEffect] at lines
    521-674), followed by the properties stated about it.

    Conventions.
    - An ethers [BigNumber] is an unbounded signed integer: [Z].  Its [div]
      truncates towards zero and throws on a zero divisor.
    - A JavaScript exception is a value [Throw e] of [result].
    - A value that is either the empty string / [undefined] or a
      [BigNumber] is an [option Z]; a [BigNumber] object is always truthy,
      also when it is zero.
    - Currency identifiers and raw input texts are [string]s; the empty
      string is the falsy, "unset" one. *)

From Stdlib Require Import ZArith String List Bool Lia.
Import ListNotations.

Local Open Scope string_scope.
Local Open Scope Z_scope.

(* ===================================================================== *)
(** ** Exceptions *)
(* ===================================================================== *)

Inductive exn : Type :=
| DivisionByZero      (* BigNumber.div with a zero divisor *)
| TypeError           (* property access on undefined *)
| InvalidBytes32      (* formatBytes32String on a text of 32 bytes or more *)
| PlainError.         (* throw Error() *)

Inductive result (A : Type) : Type :=
| Ok (a : A)
| Throw (e : exn).

Arguments Ok {A} a.
Arguments Throw {A} e.

Definition bind {A B : Type} (r : result A) (k : A -> result B) : result B :=
  match r with
  | Ok a => k a
  | Throw e => Throw e
  end.

Declare Scope result_scope.
Delimit Scope result_scope with result.
Notation "x <- r ;; k" := (bind r (fun x => k))
  (at level 61, r at next level, right associativity) : result_scope.

(* ===================================================================== *)
(** ** ethers.utils.BigNumber *)
(* ===================================================================== *)

Module BigNumber.

Definition t : Type := Z.

Definition mul (a b : t) : t := a * b.
Definition add (a b : t) : t := a + b.
Definition sub (a b : t) : t := a - b.

Definition div (a b : t) : result t :=
  if b =? 0 then Throw DivisionByZero else Ok (Z.quot a b).

Definition lt (a b : t) : bool := a <? b.
Definition gt (a b : t) : bool := b <? a.
Definition lte (a b : t) : bool := a <=? b.
Definition gte (a b : t) : bool := b <=? a.

End BigNumber.

(** [ethers.constants.MaxUint256], the ceiling called MAX_AMOUNT. *)
Definition MaxUint256 : Z := 2 ^ 256 - 1.

(* ===================================================================== *)
(** ** Constants (lines 28-39) *)
(* ===================================================================== *)

Inductive Field : Type := INPUT | OUTPUT.

Definition Field_eqb (a b : Field) : bool :=
  match a, b with
  | INPUT, INPUT | OUTPUT, OUTPUT => true
  | _, _ => false
  end.

Inductive SwapType : Type :=
| ETH_TO_SETH
| SETH_TO_ETH
| ETH_TO_OTHERSTOKEN
| OTHERSTOKEN_TO_ETH
| STOKEN_TO_STOKEN.

Definition SwapType_eqb (a b : SwapType) : bool :=
  match a, b with
  | ETH_TO_SETH, ETH_TO_SETH
  | SETH_TO_ETH, SETH_TO_ETH
  | ETH_TO_OTHERSTOKEN, ETH_TO_OTHERSTOKEN
  | OTHERSTOKEN_TO_ETH, OTHERSTOKEN_TO_ETH
  | STOKEN_TO_STOKEN, STOKEN_TO_STOKEN => true
  | _, _ => false
  end.


(** JavaScript truthiness of a value that is a string or [undefined]. *)
Definition truthy (s : option string) : bool :=
  match s with
  | None => false
  | Some s => negb (s =? "")%string
  end.

(** Strict equality [x === "lit"] of such a value with a string literal. *)
Definition strictEq (x : option string) (lit : string) : bool :=
  match x with
  | None => false
  | Some s => (s =? lit)%string
  end.

(* ===================================================================== *)
(** ** calculateSlippageBounds (lines 90-113) *)
(* ===================================================================== *)

Record SlippageBounds : Type := mkBounds { minimum : Z; maximum : Z }.

(** The empty object [{}] is [None]. *)
Definition calculateSlippageBounds
    (value : option Z) (token : bool)
    (tokenAllowedSlippage allowedSlippage : Z)
  : result (option SlippageBounds) :=
  match value with
  | Some value =>
      (offset <-
         BigNumber.div
           (BigNumber.mul value
              (if token then tokenAllowedSlippage else allowedSlippage))
           10000 ;;
       let minimum := BigNumber.sub value offset in
       let maximum := BigNumber.add value offset in
       Ok (Some
             {| minimum := if BigNumber.lt minimum 0 then 0 else minimum;
                maximum := if BigNumber.gt maximum MaxUint256
                           then MaxUint256 else maximum |}))%result
  | None => Ok None
  end.

(* ===================================================================== *)
(** ** getSwapType (lines 115-139) *)
(* ===================================================================== *)

Definition getSwapType (inputCurrency outputCurrency : option string)
  : option SwapType :=
  if negb (truthy inputCurrency) || negb (truthy outputCurrency) then None
  else if strictEq inputCurrency "ETH" then
    if strictEq outputCurrency "sETH" then Some ETH_TO_SETH
    else Some ETH_TO_OTHERSTOKEN
  else
    if strictEq inputCurrency "sETH" then
      if strictEq outputCurrency "ETH" then Some SETH_TO_ETH
      else Some STOKEN_TO_STOKEN
    else
      if strictEq outputCurrency "ETH" then Some OTHERSTOKEN_TO_ETH
      else Some STOKEN_TO_STOKEN.

(* ===================================================================== *)
(** ** Pricing (lines 141-168) *)
(* ===================================================================== *)

Definition calculateEtherSethOutputFromInput
    (inputAmount inputReserve outputReserve : Z) : result Z :=
  let inputAmountWithFee := BigNumber.mul inputAmount 997 in
  let numerator := BigNumber.mul inputAmountWithFee outputReserve in
  let denominator :=
    BigNumber.add (BigNumber.mul inputReserve 1000) inputAmountWithFee in
  BigNumber.div numerator denominator.

Definition calculateEtherSethInputFromOutput
    (outputAmount inputReserve outputReserve : Z) : result Z :=
  let numerator :=
    BigNumber.mul (BigNumber.mul inputReserve outputAmount) 1000 in
  let denominator :=
    BigNumber.mul (BigNumber.sub outputReserve outputAmount) 997 in
  (q <- BigNumber.div numerator denominator ;;
   Ok (BigNumber.add q 1))%result.

(* ===================================================================== *)
(** ** The swap state and its reducer (lines 170-244) *)
(* ===================================================================== *)

(** The object held by [useReducer].  [slippageInputValue] and
    [slippageOutputValue] are absent from the initial object and are
    [undefined] until an [UPDATE_SLIPPAGE] action stores them. *)
Record SwapState : Type := mkSwapState {
  independentValue : string;        (* this is a user input *)
  dependentValue : option Z;        (* this is a calculated number *)
  independentField : Field;
  inputCurrency : string;
  outputCurrency : string;
  slippageInputValue : option Z;
  slippageOutputValue : option Z
}.

(** The argument of [getInitialSwapState]: the object built at lines
    344-350 from the component's props and the URL parameters. *)
Record InitialArgs : Type := mkInitialArgs {
  initialCurrency : option string;
  inputCurrencyURL : option string;
  outputCurrencyURL : option string;
  exactFieldURL : option string;
  exactAmountURL : option string
}.

Definition orEmpty (s : option string) : string :=
  match s with
  | Some s => s
  | None => ""
  end.

(** [getInitialSwapState(state)].  Called without an argument, [state] is
    [undefined] and the first property access [state.exactFieldURL]
    throws a [TypeError]. *)
Definition getInitialSwapState (state : option InitialArgs)
  : result SwapState :=
  match state with
  | None => Throw TypeError
  | Some state =>
      Ok {| independentValue :=
              if truthy (exactFieldURL state) && truthy (exactAmountURL state)
              then orEmpty (exactAmountURL state) else "";
            dependentValue := None;
            independentField :=
              if strictEq (exactFieldURL state) "output" then OUTPUT
              else INPUT;
            inputCurrency :=
              if truthy (inputCurrencyURL state)
              then orEmpty (inputCurrencyURL state) else "ETH";
            outputCurrency :=
              if truthy (outputCurrencyURL state)
              then orEmpty (outputCurrencyURL state)
              else if truthy (initialCurrency state)
                   then orEmpty (initialCurrency state)
                   else "";
            slippageInputValue := None;
            slippageOutputValue := None |}
  end.

(** The actions.  [UPDATE_DEPENDENT] carries a [BigNumber] or the empty
    string; [UPDATE_SLIPPAGE] carries an object with the two legs or the
    empty string, whose properties [slippageInput] and [slippageOutput]
    are [undefined].  [UNRECOGNIZED ty] stands for an action whose [type]
    matches none of the five [case] labels. *)
Inductive Action : Type :=
| FLIP_INDEPENDENT
| SELECT_CURRENCY (field : Field) (currency : string)
| UPDATE_INDEPENDENT (field : Field) (value : string)
| UPDATE_DEPENDENT (payload : option Z)
| UPDATE_SLIPPAGE (payload : option (Z * Z))
| UNRECOGNIZED (type : string).

Definition swapStateReducer (state : SwapState) (action : Action)
  : result SwapState :=
  match action with
  | FLIP_INDEPENDENT =>
      Ok {| independentValue := independentValue state;
            dependentValue := None;
            independentField :=
              if Field_eqb (independentField state) INPUT
              then OUTPUT else INPUT;
            inputCurrency := outputCurrency state;
            outputCurrency := inputCurrency state;
            slippageInputValue := slippageInputValue state;
            slippageOutputValue := slippageOutputValue state |}
  | SELECT_CURRENCY field currency =>
      let newInputCurrency :=
        if Field_eqb field INPUT then currency else inputCurrency state in
      let newOutputCurrency :=
        if Field_eqb field OUTPUT then currency else outputCurrency state in
      if (newInputCurrency =? newOutputCurrency)%string then
        Ok {| independentValue := independentValue state;
              dependentValue := dependentValue state;
              independentField := independentField state;
              inputCurrency := if Field_eqb field INPUT then currency else "";
              outputCurrency :=
                if Field_eqb field OUTPUT then currency else "";
              slippageInputValue := slippageInputValue state;
              slippageOutputValue := slippageOutputValue state |}
      else
        Ok {| independentValue := independentValue state;
              dependentValue := dependentValue state;
              independentField := independentField state;
              inputCurrency := newInputCurrency;
              outputCurrency := newOutputCurrency;
              slippageInputValue := slippageInputValue state;
              slippageOutputValue := slippageOutputValue state |}
  | UPDATE_INDEPENDENT field value =>
      Ok {| independentValue := value;
            dependentValue :=
              if (value =? independentValue state)%string
              then dependentValue state else None;
            independentField := field;
            inputCurrency := inputCurrency state;
            outputCurrency := outputCurrency state;
            slippageInputValue := slippageInputValue state;
            slippageOutputValue := slippageOutputValue state |}
  | UPDATE_DEPENDENT payload =>
      Ok {| independentValue := independentValue state;
            dependentValue := payload;
            independentField := independentField state;
            inputCurrency := inputCurrency state;
            outputCurrency := outputCurrency state;
            slippageInputValue := slippageInputValue state;
            slippageOutputValue := slippageOutputValue state |}
  | UPDATE_SLIPPAGE payload =>
      Ok {| independentValue := independentValue state;
            dependentValue := dependentValue state;
            independentField := independentField state;
            inputCurrency := inputCurrency state;
            outputCurrency := outputCurrency state;
            slippageInputValue := option_map fst payload;
            slippageOutputValue := option_map snd payload |}
  | UNRECOGNIZED _ => getInitialSwapState None
  end.

(** Actions applied in the order they are dispatched. *)
Fixpoint reduceAll (state : SwapState) (actions : list Action)
  : result SwapState :=
  match actions with
  | [] => Ok state
  | a :: rest =>
      (s <- swapStateReducer state a ;; reduceAll s rest)%result
  end.

(** A currency is set when its identifier is truthy. *)
Definition isSet (currency : string) : bool := negb (currency =? "")%string.

(** The two selected currencies differ whenever both are set. *)
Definition currenciesDistinct (s : SwapState) : Prop :=
  isSet (inputCurrency s) = true ->
  isSet (outputCurrency s) = true ->
  inputCurrency s <> outputCurrency s.

(** A list of actions all of which are [SELECT_CURRENCY]. *)
Definition selectCurrencies (choices : list (Field * string)) : list Action :=
  map (fun c => SELECT_CURRENCY (fst c) (snd c)) choices.

(* ===================================================================== *)
(** ** Recomputing the dependent value (the effect at lines 521-674) *)
(* ===================================================================== *)

(** The two price queries of the converter contract:
    [inputPrice(src, amount, dst)] and [outputPrice(src, dst, amount)]. *)
Inductive Method : Type := inputPrice | outputPrice.

(** What a [.then] callback does with the answer of a query. *)
Inductive Continuation : Type :=
| thenUpdateDependent                                   (* lines 648-654 *)
| thenSlippageFromInput (reserveToken reserveETH : Z)   (* lines 565-582 *)
| thenSlippageFromOutput (reserveETH reserveToken : Z). (* lines 624-641 *)

(** A query that was sent and not answered yet.  [requestedFor] is the
    [amount] of the effect run that sent it: the closure captures it, the
    code never reads it back. *)
Record Pending : Type := mkPending {
  requestedFor : Z;
  method : Method;
  src : string;
  dst : string;
  queried : Z;
  continuation : Continuation
}.

(** What an effect run has done so far: the actions it dispatched and the
    queries it sent, oldest first. *)
Record Log : Type := mkLog {
  dispatched : list Action;
  sent : list Pending
}.

Definition emptyLog : Log := {| dispatched := []; sent := [] |}.

(** Effect code: it appends to the log and may throw; what was logged
    before a throw stays done. *)
Definition Eff (A : Type) : Type := Log -> Log * result A.

Definition ret {A : Type} (a : A) : Eff A := fun l => (l, Ok a).

Definition bindE {A B : Type} (m : Eff A) (k : A -> Eff B) : Eff B :=
  fun l =>
    match m l with
    | (l', Ok a) => k a l'
    | (l', Throw e) => (l', Throw e)
    end.

Definition liftR {A : Type} (r : result A) : Eff A := fun l => (l, r).

Definition dispatchSwapState (a : Action) : Eff unit :=
  fun l => ({| dispatched := dispatched l ++ [a]; sent := sent l |}, Ok tt).

Definition send (p : Pending) : Eff unit :=
  fun l => ({| dispatched := dispatched l; sent := sent l ++ [p] |}, Ok tt).

Declare Scope eff_scope.
Delimit Scope eff_scope with eff.
Notation "x <~ m ;; k" := (bindE m (fun x => k))
  (at level 61, m at next level, right associativity) : eff_scope.
Notation "m ;;; k" := (bindE m (fun _ => k))
  (at level 61, right associativity) : eff_scope.

(** [ethers.utils.formatBytes32String]: the text itself when it is
    shorter than 32 bytes; it throws on [undefined] and on longer texts. *)
Definition formatBytes32String (text : option string) : result string :=
  match text with
  | None => Throw TypeError
  | Some s =>
      if (31 <? Z.of_nat (String.length s)) then Throw InvalidBytes32
      else Ok s
  end.

(** Lines 531-586: the independent field is the input. *)
Definition inputFieldBranch
    (amount reserveETH reserveToken : Z) (swapType : option SwapType)
    (sEthBytes32 srcBytes32 dstBytes32 : string) : Eff unit :=
  let method := inputPrice in
  let args := (srcBytes32, amount, dstBytes32) in
  (r <~ match swapType with
        | Some ETH_TO_SETH =>
            slippageOutput <~
              liftR (calculateEtherSethOutputFromInput
                       amount reserveETH reserveToken) ;;
            ret (Some slippageOutput, args, false)
        | Some ETH_TO_OTHERSTOKEN =>
            slippageOutput <~
              liftR (calculateEtherSethOutputFromInput
                       amount reserveETH reserveToken) ;;
            ret (Some slippageOutput,
                 (sEthBytes32, slippageOutput, dstBytes32), true)
        | Some SETH_TO_ETH =>
            slippageOutput <~
              liftR (calculateEtherSethOutputFromInput
                       amount reserveToken reserveETH) ;;
            ret (Some slippageOutput, args, false)
        | _ => ret (None, args, false)
        end ;;
   let '(slippageOutput, args, updateDependentAsync) := r in
   updateDependentAsync <~
     match slippageOutput with
     | Some slippageOutput =>
         dispatchSwapState (UPDATE_SLIPPAGE (Some (amount, slippageOutput))) ;;;
         (if updateDependentAsync then ret tt
          else dispatchSwapState (UPDATE_DEPENDENT (Some slippageOutput))) ;;;
         ret updateDependentAsync
     | None =>
         match swapType with
         | Some OTHERSTOKEN_TO_ETH =>
             send {| requestedFor := amount; method := method;
                     src := srcBytes32; dst := sEthBytes32;
                     queried := amount;
                     continuation :=
                       thenSlippageFromInput reserveToken reserveETH |} ;;;
             ret true
         | Some STOKEN_TO_STOKEN =>
             dispatchSwapState (UPDATE_SLIPPAGE None) ;;;
             ret true
         | _ => ret updateDependentAsync
         end
     end ;;
   if updateDependentAsync then
     let '(a, b, c) := args in
     send {| requestedFor := amount; method := method;
             src := a; dst := c; queried := b;
             continuation := thenUpdateDependent |}
   else ret tt)%eff.

(** Lines 587-646: the independent field is the output. *)
Definition outputFieldBranch
    (amount reserveETH reserveToken : Z) (swapType : option SwapType)
    (sEthBytes32 srcBytes32 dstBytes32 : string) : Eff unit :=
  let method := outputPrice in
  let args := (srcBytes32, dstBytes32, amount) in
  (r <~ match swapType with
        | Some ETH_TO_SETH =>
            slippageInput <~
              liftR (calculateEtherSethInputFromOutput
                       amount reserveETH reserveToken) ;;
            ret (Some slippageInput, args, false)
        | Some SETH_TO_ETH =>
            slippageInput <~
              liftR (calculateEtherSethInputFromOutput
                       amount reserveToken reserveETH) ;;
            ret (Some slippageInput, args, false)
        | Some OTHERSTOKEN_TO_ETH =>
            slippageInput <~
              liftR (calculateEtherSethInputFromOutput
                       amount reserveToken reserveETH) ;;
            ret (Some slippageInput,
                 (srcBytes32, sEthBytes32, slippageInput), true)
        | _ => ret (None, args, false)
        end ;;
   let '(slippageInput, args, updateDependentAsync) := r in
   updateDependentAsync <~
     match slippageInput with
     | Some slippageInput =>
         dispatchSwapState (UPDATE_SLIPPAGE (Some (slippageInput, amount))) ;;;
         (if updateDependentAsync then ret tt
          else dispatchSwapState (UPDATE_DEPENDENT (Some slippageInput))) ;;;
         ret updateDependentAsync
     | None =>
         match swapType with
         | Some ETH_TO_OTHERSTOKEN =>
             send {| requestedFor := amount; method := method;
                     src := sEthBytes32; dst := dstBytes32;
                     queried := amount;
                     continuation :=
                       thenSlippageFromOutput reserveETH reserveToken |} ;;;
             ret true
         | Some STOKEN_TO_STOKEN =>
             dispatchSwapState (UPDATE_SLIPPAGE None) ;;;
             ret true
         | _ => ret updateDependentAsync
         end
     end ;;
   if updateDependentAsync then
     let '(a, b, c) := args in
     send {| requestedFor := amount; method := method;
             src := a; dst := b; queried := c;
             continuation := thenUpdateDependent |}
   else ret tt)%eff.

(** The [try] block, lines 525-655. *)
Definition dependentValueTry
    (amount reserveETH reserveToken : Z) (independentField : Field)
    (swapType : option SwapType) (inputSymbol outputSymbol : option string)
  : Eff unit :=
  (sEthBytes32 <~ liftR (formatBytes32String (Some "sETH")) ;;
   srcBytes32 <~ liftR (formatBytes32String inputSymbol) ;;
   dstBytes32 <~ liftR (formatBytes32String outputSymbol) ;;
   if Field_eqb independentField INPUT then
     inputFieldBranch amount reserveETH reserveToken swapType
       sEthBytes32 srcBytes32 dstBytes32
   else
     outputFieldBranch amount reserveETH reserveToken swapType
       sEthBytes32 srcBytes32 dstBytes32)%eff.

(** What one run of the effect body leaves behind.  [liquidityError] is
    set when the [catch] at line 656 ran
    [setIndependentError(t("insufficientLiquidity"))]. *)
Record EffectRun : Type := mkEffectRun {
  effectLog : Log;
  liquidityError : bool
}.

(** The effect body, lines 522-659. *)
Definition dependentValueEffect
    (independentValueParsed reserveETH reserveToken : option Z)
    (independentField : Field) (swapType : option SwapType)
    (inputSymbol outputSymbol : option string) : EffectRun :=
  match independentValueParsed, reserveETH, reserveToken with
  | Some amount, Some reserveETH, Some reserveToken =>
      match dependentValueTry amount reserveETH reserveToken
              independentField swapType inputSymbol outputSymbol emptyLog with
      | (l, Ok _) => {| effectLog := l; liquidityError := false |}
      | (l, Throw _) => {| effectLog := l; liquidityError := true |}
      end
  | _, _, _ => {| effectLog := emptyLog; liquidityError := false |}
  end.

(** The function the effect returns, lines 660-663. *)
Definition dependentValueCleanup : list Action :=
  [UPDATE_DEPENDENT None; UPDATE_SLIPPAGE None].

(** A [.then] callback run on the answer of its query.  A [throw] inside
    it rejects the promise and dispatches nothing. *)
Definition runContinuation (k : Continuation) (response : Z) : list Action :=
  match k with
  | thenUpdateDependent =>
      let resultAmt := response in
      if BigNumber.lte resultAmt 0 then []
      else [UPDATE_DEPENDENT (Some resultAmt)]
  | thenSlippageFromInput reserveToken reserveETH =>
      let sEthAmt := response in
      if BigNumber.lte sEthAmt 0 then []
      else
        match calculateEtherSethOutputFromInput
                sEthAmt reserveToken reserveETH with
        | Ok slippageOutput2 =>
            [UPDATE_SLIPPAGE (Some (sEthAmt, slippageOutput2))]
        | Throw _ => []
        end
  | thenSlippageFromOutput reserveETH reserveToken =>
      let sEthAmt := response in
      if BigNumber.lte sEthAmt 0 then []
      else
        match calculateEtherSethInputFromOutput
                sEthAmt reserveETH reserveToken with
        | Ok slippageInput2 =>
            [UPDATE_SLIPPAGE (Some (slippageInput2, sEthAmt))]
        | Throw _ => []
        end
  end.

(* ===================================================================== *)
(** ** The component: state, renders and effects *)
(* ===================================================================== *)

(** What the component reads from its collaborators.  [tokenDetails] is
    [useTokenDetails] (symbol and decimals of a currency, either possibly
    [undefined]); [parseUnits] is [ethers.utils.parseUnits]; the reserves
    are the two balances of the sETH exchange, [undefined] while they are
    not known.  They are held fixed here. *)
Record Externals : Type := mkExternals {
  tokenDetails : string -> option string * option Z;
  parseUnits : string -> Z -> result Z;
  reserveETH : option Z;
  reserveToken : option Z
}.

(** The hooks' state that the recomputation involves, and the queries in
    flight, oldest first. *)
Record Component : Type := mkComponent {
  swapState : SwapState;
  independentValueParsed : option Z;
  inFlight : list Pending
}.

Definition option_eqb {A : Type} (eqb : A -> A -> bool) (x y : option A)
  : bool :=
  match x, y with
  | Some a, Some b => eqb a b
  | None, None => true
  | _, _ => false
  end.

Definition isSome {A : Type} (x : option A) : bool :=
  match x with
  | Some _ => true
  | None => false
  end.

Section Rendering.

Variable ext : Externals.

(** Values computed during a render, lines 354-411. *)
Definition inputSymbol (s : SwapState) : option string :=
  fst (tokenDetails ext (inputCurrency s)).
Definition inputDecimals (s : SwapState) : option Z :=
  snd (tokenDetails ext (inputCurrency s)).
Definition outputSymbol (s : SwapState) : option string :=
  fst (tokenDetails ext (outputCurrency s)).
Definition outputDecimals (s : SwapState) : option Z :=
  snd (tokenDetails ext (outputCurrency s)).

Definition swapType (s : SwapState) : option SwapType :=
  getSwapType (inputSymbol s) (outputSymbol s).

Definition independentDecimals (s : SwapState) : option Z :=
  if Field_eqb (independentField s) INPUT
  then inputDecimals s else outputDecimals s.

(** The validation effect, lines 437-466, its cleanup included: the
    parsed amount it leaves, [undefined] when the text is empty, does
    not parse or is out of range. *)
Definition parseEffect (s : SwapState) : option Z :=
  match independentDecimals s with
  | Some decimals =>
      if negb (independentValue s =? "")%string then
        match parseUnits ext (independentValue s) decimals with
        | Ok parsedValue =>
            if BigNumber.lte parsedValue 0
               || BigNumber.gte parsedValue MaxUint256
            then None
            else Some parsedValue
        | Throw _ => None
        end
      else None
  | None => None
  end.

(** The dependencies of the validation effect changed. *)
Definition parseDepsChanged (old new : SwapState) : bool :=
  negb (independentValue old =? independentValue new)%string
  || negb (option_eqb Z.eqb (independentDecimals old)
             (independentDecimals new)).

(** The dependencies of the recomputation changed between two renders.
    [reparsed] tells that the validation effect ran in between: a
    parsed amount is then a fresh object, different from the previous
    one also when the numbers agree. *)
Definition calcDepsChanged
    (old new : SwapState) (oldParsed newParsed : option Z)
    (reparsed : bool) : bool :=
  (reparsed && (isSome oldParsed || isSome newParsed))
  || negb (option_eqb Z.eqb oldParsed newParsed)
  || negb (option_eqb SwapType_eqb (swapType old) (swapType new))
  || negb (Field_eqb (independentField old) (independentField new))
  || negb (option_eqb String.eqb (inputSymbol old) (inputSymbol new))
  || negb (option_eqb String.eqb (outputSymbol old) (outputSymbol new)).

(** One run of the recomputation on a render: the cleanup of the
    previous run, then the body. *)
Definition rerunDependentValue (c : Component) : result Component :=
  let s := swapState c in
  let run :=
    dependentValueEffect (independentValueParsed c)
      (reserveETH ext) (reserveToken ext) (independentField s)
      (swapType s) (inputSymbol s) (outputSymbol s) in
  (s' <- reduceAll s
           (dependentValueCleanup ++ dispatched (effectLog run)) ;;
   Ok {| swapState := s';
         independentValueParsed := independentValueParsed c;
         inFlight := inFlight c ++ sent (effectLog run) |})%result.

(** The renders that follow a change of the swap state from [old] to
    the one in [c].  First render: the effects whose dependencies
    changed run on the values of that render, so the recomputation
    still sees the previous parsed amount.  Second render: the
    recomputation runs again when the validation effect replaced the
    parsed amount.  Nothing an effect dispatches changes a dependency,
    so no third render runs an effect. *)
Definition settle (old : SwapState) (c : Component) : result Component :=
  let s := swapState c in
  let oldParsed := independentValueParsed c in
  let reparsed := parseDepsChanged old s in
  (c1 <- (if calcDepsChanged old s oldParsed oldParsed false
          then rerunDependentValue c else Ok c) ;;
   let newParsed := if reparsed then parseEffect s else oldParsed in
   let c2 :=
     {| swapState := swapState c1;
        independentValueParsed := newParsed;
        inFlight := inFlight c1 |} in
   if calcDepsChanged s s oldParsed newParsed reparsed
   then rerunDependentValue c2 else Ok c2)%result.

(** An action dispatched by the user interface (lines 956-1029), and
    the renders it causes. *)
Definition userDispatch (c : Component) (a : Action) : result Component :=
  (s <- swapStateReducer (swapState c) a ;;
   settle (swapState c)
     {| swapState := s;
        independentValueParsed := independentValueParsed c;
        inFlight := inFlight c |})%result.

(** Removes the query at position [n]. *)
Fixpoint removeNth {A : Type} (n : nat) (l : list A) : list A :=
  match n, l with
  | _, [] => []
  | O, _ :: rest => rest
  | S n, x :: rest => x :: removeNth n rest
  end.

(** The query at position [n] is answered with [response]: its
    callback runs and what it dispatches is reduced.  No dependency of
    an effect changes, so no effect runs. *)
Definition resolve (c : Component) (n : nat) (response : Z)
  : result Component :=
  match nth_error (inFlight c) n with
  | Some p =>
      (s <- reduceAll (swapState c)
              (runContinuation (continuation p) response) ;;
       Ok {| swapState := s;
             independentValueParsed := independentValueParsed c;
             inFlight := removeNth n (inFlight c) |})%result
  | None => Ok c
  end.

(** The first render (lines 342-352) and the effects of the mount. *)
Definition mount (args : InitialArgs) : result Component :=
  (s <- getInitialSwapState (Some args) ;;
   let parsed := parseEffect s in
   let c :=
     {| swapState := s;
        independentValueParsed := parsed;
        inFlight := [] |} in
   if isSome parsed then rerunDependentValue c else Ok c)%result.

(** What happens to a mounted component. *)
Inductive Event : Type :=
| User (a : Action)
| Answer (n : nat) (response : Z).

Definition step (c : Component) (e : Event) : result Component :=
  match e with
  | User a => userDispatch c a
  | Answer n response => resolve c n response
  end.

Fixpoint run (c : Component) (events : list Event) : result Component :=
  match events with
  | [] => Ok c
  | e :: rest => (c' <- step c e ;; run c' rest)%result
  end.

(** The actions the user interface dispatches. *)
Definition fromUser (a : Action) : Prop :=
  match a with
  | FLIP_INDEPENDENT | SELECT_CURRENCY _ _ | UPDATE_INDEPENDENT _ _ => True
  | _ => False
  end.

Definition userEvent (e : Event) : Prop :=
  match e with
  | User a => fromUser a
  | Answer _ _ => True
  end.

(** A session: the mount, then the events in order. *)
Definition play (args : InitialArgs) (events : list Event)
  : result Component :=
  (c0 <- mount args ;; run c0 events)%result.

(** The components a session can be in. *)
Definition reachable (c : Component) : Prop :=
  exists args events,
    Forall userEvent events /\ play args events = Ok c.

End Rendering.

(* ===================================================================== *)
(** ** A concrete session *)
(* ===================================================================== *)

Definition digitValue (c : Ascii.ascii) : option Z :=
  let n := Z.of_nat (Ascii.nat_of_ascii c) in
  if (48 <=? n) && (n <=? 57) then Some (n - 48) else None.

Fixpoint parseDigits (acc : Z) (s : string) : option Z :=
  match s with
  | EmptyString => Some acc
  | String c rest =>
      match digitValue c with
      | Some d => parseDigits (acc * 10 + d) rest
      | None => None
      end
  end.

(** [parseUnits] on whole-number texts: a text made of decimal digits
    only is that number scaled by [10 ^ decimals].  Every other text is
    rejected, which is narrower than the library. *)
Definition parseUnitsWhole (value : string) (decimals : Z) : result Z :=
  match value with
  | EmptyString => Throw PlainError
  | _ =>
      match parseDigits 0 value with
      | Some n => Ok (n * 10 ^ decimals)
      | None => Throw PlainError
      end
  end.

(** Two currencies are known: ETH and one synth, sUSD. *)
Definition sUSD : string := "0x57Ab1E02fEE23774580C119740129eAC7081e9D3".

Definition sessionTokenDetails (currency : string)
  : option string * option Z :=
  if (currency =? "ETH")%string then (Some "ETH", Some 18)
  else if (currency =? sUSD)%string then (Some "sUSD", Some 18)
  else (None, None).

Definition session : Externals :=
  {| tokenDetails := sessionTokenDetails;
     parseUnits := parseUnitsWhole;
     reserveETH := Some (1000 * 10 ^ 18);
     reserveToken := Some (2000 * 10 ^ 18) |}.

(** The page opened with sUSD as the initial output currency. *)
Definition sessionArgs : InitialArgs :=
  {| initialCurrency := Some sUSD;
     inputCurrencyURL := None;
     outputCurrencyURL := None;
     exactFieldURL := None;
     exactAmountURL := None |}.

(** A form in which 5 ETH are to be sold for sUSD and a dependent value
    has been computed. *)
Definition quotedState : SwapState :=
  {| independentValue := "5"; dependentValue := Some 9;
     independentField := INPUT;
     inputCurrency := "ETH"; outputCurrency := sUSD;
     slippageInputValue := None; slippageOutputValue := None |}.

(** A query for the dependent value, sent for the amount 5. *)
Definition earlierQuery : Pending :=
  {| requestedFor := 5; method := inputPrice; src := "sETH";
     dst := "sUSD"; queried := 9; continuation := thenUpdateDependent |}.

(** The component after the amount has become 7, the earlier query
    still in flight. *)
Definition supersededComponent : Component :=
  {| swapState :=
       {| independentValue := "7"; dependentValue := None;
          independentField := INPUT;
          inputCurrency := "ETH"; outputCurrency := sUSD;
          slippageInputValue := None; slippageOutputValue := None |};
     independentValueParsed := Some 7;
     inFlight := [earlierQuery] |}.





(** The rule that a result is accepted only for the amount that asked
    for it.  In a session, a query is in flight that was sent for the
    current parsed amount; an [UPDATE_INDEPENDENT] action replaces the
    parsed amount; then the answer to that query leaves the dependent
    value as it is. *)
Definition staleResultsDropped (ext : Externals) : Prop :=
  forall c field value c' n p response c'',
    reachable ext c ->
    nth_error (inFlight c) n = Some p ->
    independentValueParsed c = Some (requestedFor p) ->
    userDispatch ext c (UPDATE_INDEPENDENT field value) = Ok c' ->
    independentValueParsed c' <> independentValueParsed c ->
    resolve c' n response = Ok c'' ->
    dependentValue (swapState c'') = dependentValue (swapState c').

(** A symbol that is set and is neither the native nor the bridge one. *)
Definition otherSymbol (x : string) : Prop :=
  x <> "" /\ x <> "ETH" /\ x <> "sETH".

(* ===================================================================== *)
(** ** Exchange rates (lines 246-304) *)
(* ===================================================================== *)

(** [ethers.utils.bigNumberify(10).pow(ethers.utils.bigNumberify(n))] for
    a number of decimals [n], which is a non-negative integer. *)
Definition tenToThe (n : Z) : Z := 10 ^ n.

(** [getExchangeRate].  A value is a [BigNumber] or absent; a number of
    decimals passes the guard when it is a number ([0] included).  The
    [try] swallows what the arithmetic throws and the function then
    returns [undefined]. *)
Definition getExchangeRate
    (inputValue inputDecimals outputValue outputDecimals : option Z)
    (invert : bool) : option Z :=
  match inputValue, inputDecimals, outputValue, outputDecimals with
  | Some inputValue, Some inputDecimals,
    Some outputValue, Some outputDecimals =>
      let factor := tenToThe 18 in
      match
        (if invert then
           (q <- BigNumber.div (BigNumber.mul inputValue factor) outputValue ;;
            BigNumber.div (BigNumber.mul q (tenToThe outputDecimals))
              (tenToThe inputDecimals))%result
         else
           (q <- BigNumber.div (BigNumber.mul outputValue factor) inputValue ;;
            BigNumber.div (BigNumber.mul q (tenToThe inputDecimals))
              (tenToThe outputDecimals))%result)
      with
      | Ok rate => Some rate
      | Throw _ => None
      end
  | _, _, _, _ => None
  end.

(** [getMarketRate]: the rate of the sETH pool in the direction of the
    swap, [undefined] for a swap between two synths. *)
Definition getMarketRate
    (swapType : option SwapType) (reserveETH reserveSEthToken : option Z)
    (invert : bool) : option Z :=
  if option_eqb SwapType_eqb swapType (Some ETH_TO_SETH)
     || option_eqb SwapType_eqb swapType (Some ETH_TO_OTHERSTOKEN)
  then getExchangeRate reserveETH (Some 18) reserveSEthToken (Some 18) invert
  else if option_eqb SwapType_eqb swapType (Some SETH_TO_ETH)
          || option_eqb SwapType_eqb swapType (Some OTHERSTOKEN_TO_ETH)
  then getExchangeRate reserveSEthToken (Some 18) reserveETH (Some 18) invert
  else None.

(* ===================================================================== *)
(** ** Slippage settings and warnings (lines 312-320, 705-727) *)
(* ===================================================================== *)


(** [percentSlippage], lines 705-719.  It is computed during a render,
    outside any [try]. *)
Definition percentSlippage (ethSethExchangeRate marketRate : option Z)
  : result (option Z) :=
  match ethSethExchangeRate, marketRate with
  | Some ethSethExchangeRate, Some marketRate =>
      (q <- BigNumber.div
              (BigNumber.mul
                 (Z.abs (BigNumber.sub ethSethExchangeRate marketRate))
                 (tenToThe 18))
              marketRate ;;
       Ok (Some (BigNumber.sub q (BigNumber.mul 3 (tenToThe 15)))))%result
  | _, _ => Ok None
  end.

(** [ethers.utils.parseEther(".05")] and [ethers.utils.parseEther(".2")]. *)
Definition fivePercent : Z := 5 * 10 ^ 16.
Definition twentyPercent : Z := 2 * 10 ^ 17.

(** Lines 722-727, as the truth value the interface tests. *)
Definition slippageWarning (percentSlippage : option Z) : bool :=
  match percentSlippage with
  | Some p => BigNumber.gte p fivePercent && BigNumber.lt p twentyPercent
  | None => false
  end.

Definition highSlippageWarning (percentSlippage : option Z) : bool :=
  match percentSlippage with
  | Some p => BigNumber.gte p twentyPercent
  | None => false
  end.

(* ===================================================================== *)
(** ** Balance and allowance validation (lines 468-518, 729-734) *)
(* ===================================================================== *)

(** The value of an error state: [undefined], [null] or a message,
    named by its translation key. *)
Inductive ErrorState : Type :=
| errorUndefined
| errorNull
| errorMessage (key : string).

Definition isNull (e : ErrorState) : bool :=
  match e with
  | errorNull => true
  | _ => false
  end.

(** [dependentValueMaximum], lines 469-477: the [maximum] of the
    slippage bounds of the dependent value, [undefined] without one. *)
Definition dependentValueMaximum
    (dependentValue : option Z) (swapType : option SwapType)
    (tokenAllowedSlippageBig allowedSlippageBig : Z) : result (option Z) :=
  (bounds <- calculateSlippageBounds dependentValue
               (option_eqb SwapType_eqb swapType (Some STOKEN_TO_STOKEN))
               tokenAllowedSlippageBig allowedSlippageBig ;;
   Ok (option_map maximum bounds))%result.

Definition dependentValueMinumum
    (dependentValue : option Z) (swapType : option SwapType)
    (tokenAllowedSlippageBig allowedSlippageBig : Z) : result (option Z) :=
  (bounds <- calculateSlippageBounds dependentValue
               (option_eqb SwapType_eqb swapType (Some STOKEN_TO_STOKEN))
               tokenAllowedSlippageBig allowedSlippageBig ;;
   Ok (option_map minimum bounds))%result.

(** [x.lt(y)] on a value that may be [undefined]. *)
Definition ltOrThrow (x : option Z) (y : Z) : result bool :=
  match x with
  | Some x => Ok (BigNumber.lt x y)
  | None => Throw TypeError
  end.

(** The effect at lines 482-518: the pair of [inputError] and
    [showUnlock] it leaves.  When its condition fails the effect sets
    nothing and the cleanup of the run before has reset both. *)
Definition inputValidation
    (independentField : Field)
    (independentValueParsed dependentValueMaximum : option Z)
    (inputBalance inputAllowance : option Z) (inputCurrency : string)
  : result (ErrorState * bool) :=
  let inputValueCalculation :=
    if Field_eqb independentField INPUT
    then independentValueParsed else dependentValueMaximum in
  match inputBalance, inputValueCalculation with
  | Some inputBalance, Some inputValueCalculation =>
      if isSome inputAllowance || (inputCurrency =? "ETH")%string then
        if BigNumber.lt inputBalance inputValueCalculation then
          Ok (errorMessage "insufficientBalance", false)
        else if negb (inputCurrency =? "ETH")%string then
          (short <- ltOrThrow inputAllowance inputValueCalculation ;;
           if short then Ok (errorMessage "unlockTokenCont", true)
           else Ok (errorNull, false))%result
        else Ok (errorNull, false)
      else Ok (errorUndefined, false)
  | _, _ => Ok (errorUndefined, false)
  end.

(** [isValid], lines 729-734, as the truth value the button tests. *)
Definition isValid
    (sending : bool) (exchangeRate : option Z)
    (inputError independentError recipientError : ErrorState) : bool :=
  if sending then
    isSome exchangeRate && isNull inputError && isNull independentError
    && isNull recipientError
  else
    isSome exchangeRate && isNull inputError && isNull independentError.

(* ===================================================================== *)
(** ** Assembling the transaction ([onSwap], lines 741-928) *)
(* ===================================================================== *)

Definition DEADLINE_FROM_NOW : Z := 60 * 15.

(** [ethers.constants.AddressZero]. *)
Definition AddressZero : string :=
  "0x0000000000000000000000000000000000000000".

(** The methods of the converter contract that [onSwap] selects. *)
Inductive ContractMethod : Type :=
| ethToSethInput | sEthToEthInput | ethToOtherTokenInput
| otherTokenToEthInput | sTokenToStokenInput
| ethToSethOutput | sEthToEthOutput | ethToOtherTokenOutput
| otherTokenToEthOutput | sTokenToStokenOutput.

(** One positional argument: an amount (possibly [undefined]), a
    currency key, the deadline or an address. *)
Inductive Arg : Type :=
| argAmount (amount : option Z)
| argKey (key : string)
| argDeadline (deadline : Z)
| argAddress (address : string).

(** The call [onSwap] hands to the contract: [method(...args, { value })]. *)
Record SwapCall : Type := mkSwapCall {
  callMethod : ContractMethod;
  callArgs : list Arg;
  callValue : option Z
}.

(** [Math.ceil(Date.now() / 1000) + DEADLINE_FROM_NOW], [now] being the
    clock in milliseconds, an integer: the quotient is rounded up to the
    next whole second. *)
Definition deadlineFrom (now : Z) : Z := - ((- now) / 1000) + DEADLINE_FROM_NOW.

(** Lines 742-921.  Without a swap type nothing is selected and calling
    the [undefined] method throws. *)
Definition onSwap
    (now : Z) (independentField : Field) (swapType : option SwapType)
    (sending : bool) (recipientAddress : string)
    (independentValueParsed dependentValueMinumum dependentValueMaximum
       : option Z)
    (inputSymbol outputSymbol : option string) : result SwapCall :=
  let deadline := deadlineFrom now in
  match independentField, swapType with
  | INPUT, Some ETH_TO_SETH =>
      Ok {| callMethod := ethToSethInput;
            callArgs :=
              if sending
              then [argAmount dependentValueMinumum; argDeadline deadline;
                    argAddress recipientAddress]
              else [argAmount dependentValueMinumum; argDeadline deadline;
                    argAddress AddressZero];
            callValue := independentValueParsed |}
  | INPUT, Some SETH_TO_ETH =>
      Ok {| callMethod := sEthToEthInput;
            callArgs :=
              if sending
              then [argAmount independentValueParsed;
                    argAmount dependentValueMinumum; argDeadline deadline;
                    argAddress recipientAddress]
              else [argAmount independentValueParsed;
                    argAmount dependentValueMinumum; argDeadline deadline;
                    argAddress AddressZero];
            callValue := Some 0 |}
  | INPUT, Some ETH_TO_OTHERSTOKEN =>
      (outputKey <- formatBytes32String outputSymbol ;;
       Ok {| callMethod := ethToOtherTokenInput;
             callArgs :=
               if sending
               then [argAmount dependentValueMinumum; argKey outputKey;
                     argDeadline deadline; argAddress recipientAddress]
               else [argAmount dependentValueMinumum; argKey outputKey;
                     argDeadline deadline; argAddress AddressZero];
             callValue := independentValueParsed |})%result
  | INPUT, Some OTHERSTOKEN_TO_ETH =>
      (inputKey <- formatBytes32String inputSymbol ;;
       Ok {| callMethod := otherTokenToEthInput;
             callArgs :=
               if sending
               then [argKey inputKey; argAmount independentValueParsed;
                     argAmount dependentValueMinumum; argDeadline deadline;
                     argAddress recipientAddress]
               else [argKey inputKey; argAmount independentValueParsed;
                     argAmount dependentValueMinumum; argDeadline deadline;
                     argAddress AddressZero];
             callValue := Some 0 |})%result
  | INPUT, Some STOKEN_TO_STOKEN =>
      (inputKey <- formatBytes32String inputSymbol ;;
       outputKey <- formatBytes32String outputSymbol ;;
       Ok {| callMethod := sTokenToStokenInput;
             callArgs :=
               if sending
               then [argKey inputKey; argAmount independentValueParsed;
                     argKey outputKey; argAmount dependentValueMinumum;
                     argDeadline deadline; argAddress recipientAddress]
               else [argKey inputKey; argAmount independentValueParsed;
                     argKey outputKey; argAmount dependentValueMinumum;
                     argDeadline deadline; argAddress AddressZero];
             callValue := Some 0 |})%result
  | OUTPUT, Some ETH_TO_SETH =>
      Ok {| callMethod := ethToSethOutput;
            callArgs :=
              if sending
              then [argAmount independentValueParsed; argDeadline deadline;
                    argAddress recipientAddress]
              else [argAmount independentValueParsed; argDeadline deadline;
                    argAddress AddressZero];
            callValue := dependentValueMaximum |}
  | OUTPUT, Some SETH_TO_ETH =>
      Ok {| callMethod := sEthToEthOutput;
            callArgs :=
              if sending
              then [argAmount independentValueParsed;
                    argAmount dependentValueMaximum; argDeadline deadline;
                    argAddress recipientAddress]
              else [argAmount independentValueParsed;
                    argAmount dependentValueMaximum; argDeadline deadline;
                    argAddress AddressZero];
            callValue := Some 0 |}
  | OUTPUT, Some ETH_TO_OTHERSTOKEN =>
      (outputKey <- formatBytes32String outputSymbol ;;
       Ok {| callMethod := ethToOtherTokenOutput;
             callArgs :=
               if sending
               then [argAmount independentValueParsed; argKey outputKey;
                     argDeadline deadline; argAddress recipientAddress]
               else [argAmount independentValueParsed; argKey outputKey;
                     argDeadline deadline; argAddress AddressZero];
             callValue := dependentValueMaximum |})%result
  | OUTPUT, Some OTHERSTOKEN_TO_ETH =>
      (inputKey <- formatBytes32String inputSymbol ;;
       Ok {| callMethod := otherTokenToEthOutput;
             callArgs :=
               if sending
               then [argAmount independentValueParsed; argKey inputKey;
                     argAmount dependentValueMaximum; argDeadline deadline;
                     argAddress recipientAddress]
               else [argAmount independentValueParsed; argKey inputKey;
                     argAmount dependentValueMaximum; argDeadline deadline;
                     argAddress AddressZero];
             callValue := Some 0 |})%result
  | OUTPUT, Some STOKEN_TO_STOKEN =>
      (inputKey <- formatBytes32String inputSymbol ;;
       outputKey <- formatBytes32String outputSymbol ;;
       Ok {| callMethod := sTokenToStokenOutput;
             callArgs :=
               if sending
               then [argKey inputKey; argAmount dependentValueMaximum;
                     argKey outputKey; argAmount independentValueParsed;
                     argDeadline deadline; argAddress recipientAddress]
               else [argKey inputKey; argAmount dependentValueMaximum;
                     argKey outputKey; argAmount independentValueParsed;
                     argDeadline deadline; argAddress AddressZero];
             callValue := Some 0 |})%result
  | _, None => Throw TypeError
  end.

(* ===================================================================== *)
(** ** Vocabulary of the further properties *)
(* ===================================================================== *)

(** The actions the reducer has a [case] for. *)
Definition recognized (a : Action) : Prop :=
  match a with
  | UNRECOGNIZED _ => False
  | _ => True
  end.

(** The actions an effect or a callback dispatches. *)
Definition fromEffect (a : Action) : Prop :=
  match a with
  | UPDATE_DEPENDENT _ | UPDATE_SLIPPAGE _ => True
  | _ => False
  end.

Definition isUpdateDependent (a : Action) : bool :=
  match a with
  | UPDATE_DEPENDENT _ => true
  | _ => false
  end.

Definition updatesDependent (p : Pending) : bool :=
  match continuation p with
  | thenUpdateDependent => true
  | _ => false
  end.

(** How many times a run sets the dependent value itself, and how many
    of the queries it sent will. *)
Definition dependentDispatches (l : Log) : nat :=
  length (filter isUpdateDependent (dispatched l)).

Definition dependentQueries (l : Log) : nat :=
  length (filter updatesDependent (sent l)).

(** The swap types priced on the pool alone. *)
Definition direct (t : SwapType) : bool :=
  match t with
  | ETH_TO_SETH | SETH_TO_ETH => true
  | _ => false
  end.

(** An amount the validation effect accepts. *)
Definition validAmount (amount : Z) : Prop := 0 < amount < MaxUint256.

(** What holds of every component of a session: the parsed amount, when
    there is one, is valid, and so is the amount every query in flight
    was sent for. *)
Definition amountsValid (c : Component) : Prop :=
  (forall amount, independentValueParsed c = Some amount -> validAmount amount)
  /\ Forall (fun p => validAmount (requestedFor p)) (inFlight c).

(** A symbol [formatBytes32String] accepts. *)
Definition shortSymbol (symbol : option string) : Prop :=
  exists s, symbol = Some s /\ (String.length s <= 31)%nat.

(* ===================================================================== *)
(** * Properties *)
(* ===================================================================== *)

(** ** Pricing *)

Section PricingFacts.

Variables Rin Rout : Z.
Hypothesis Rin_pos : 0 < Rin.
Hypothesis Rout_pos : 0 < Rout.

Lemma forward_value (amountIn : Z) :
  0 <= amountIn ->
  calculateEtherSethOutputFromInput amountIn Rin Rout
  = Ok (amountIn * 997 * Rout / (Rin * 1000 + amountIn * 997)).
Proof.
  intros Ha.
  unfold calculateEtherSethOutputFromInput, BigNumber.div,
    BigNumber.mul, BigNumber.add.
  destruct (Z.eqb_spec (Rin * 1000 + amountIn * 997) 0) as [E | _];
    [lia |].
  rewrite Z.quot_div_nonneg by nia.
  reflexivity.
Qed.

Lemma inverse_value (amountOut : Z) :
  0 <= amountOut < Rout ->
  calculateEtherSethInputFromOutput amountOut Rin Rout
  = Ok (Rin * amountOut * 1000 / ((Rout - amountOut) * 997) + 1).
Proof.
  intros Ha.
  unfold calculateEtherSethInputFromOutput, BigNumber.div,
    BigNumber.mul, BigNumber.add, BigNumber.sub, bind.
  destruct (Z.eqb_spec ((Rout - amountOut) * 997) 0) as [E | _];
    [lia |].
  rewrite Z.quot_div_nonneg by nia.
  reflexivity.
Qed.

(** The quotient of the inverse formula, plus one, is large enough. *)
Lemma inverse_covers (amountOut : Z) :
  0 <= amountOut < Rout ->
  let amountIn := Rin * amountOut * 1000 / ((Rout - amountOut) * 997) + 1 in
  0 < amountIn /\
  (Rin * 1000 + amountIn * 997) * amountOut <= amountIn * 997 * Rout.
Proof.
  intros Ha amountIn.
  set (d := (Rout - amountOut) * 997) in *.
  set (n := Rin * amountOut * 1000) in *.
  assert (Hd : 0 < d) by (unfold d; lia).
  assert (Hn : 0 <= n) by (unfold n; nia).
  pose proof (Z.div_pos n d Hn Hd) as Hq.
  pose proof (Z.mul_succ_div_gt n d Hd) as Hlt.
  split; [unfold amountIn; lia |].
  unfold amountIn.
  replace (Z.succ (n / d)) with (n / d + 1) in Hlt by lia.
  unfold d, n in *. nia.
Qed.

Lemma forward_below_reserve (amountIn : Z) :
  0 <= amountIn ->
  amountIn * 997 * Rout / (Rin * 1000 + amountIn * 997) < Rout.
Proof.
  intros Ha.
  apply Z.div_lt_upper_bound; nia.
Qed.

Lemma forward_monotone (a1 a2 : Z) :
  0 <= a1 -> a1 <= a2 ->
  a1 * 997 * Rout / (Rin * 1000 + a1 * 997)
  <= a2 * 997 * Rout / (Rin * 1000 + a2 * 997).
Proof.
  intros H1 H12.
  set (d1 := Rin * 1000 + a1 * 997).
  set (d2 := Rin * 1000 + a2 * 997).
  assert (Hd1 : 0 < d1) by (unfold d1; lia).
  assert (Hd2 : 0 < d2) by (unfold d2; lia).
  apply Z.div_le_lower_bound; [exact Hd2 |].
  set (q := a1 * 997 * Rout / d1).
  assert (Hq : d1 * q <= a1 * 997 * Rout)
    by (apply Z.mul_div_le; exact Hd1).
  assert (Hq0 : 0 <= q) by (apply Z.div_pos; [nia | exact Hd1]).
  assert (Hcross : a1 * 997 * Rout * d2 <= a2 * 997 * Rout * d1).
  { assert (Hgap : 0 <= (a2 - a1) * (Rout * Rin))
      by (apply Z.mul_nonneg_nonneg; nia).
    assert (Hdiff : a2 * 997 * Rout * d1 - a1 * 997 * Rout * d2
                    = 997000 * ((a2 - a1) * (Rout * Rin)))
      by (unfold d1, d2; ring).
    lia. }
  apply Z.mul_le_mono_pos_l with (p := d1); [exact Hd1 |].
  assert (Hstep : d1 * (d2 * q) = d2 * (d1 * q)) by ring.
  assert (Hmono : d2 * (d1 * q) <= d2 * (a1 * 997 * Rout))
    by (apply Z.mul_le_mono_nonneg_l; lia).
  lia.
Qed.

End PricingFacts.

(** C1.  For reserves [Rin > 0], [Rout > 0] and a requested output with
    [0 < amountOut < Rout], the inverse pricing function returns an input
    amount, the forward pricing function returns an output for that
    input, and this output meets or exceeds the requested one:
    priceForward(priceInverse(amountOut, Rin, Rout), Rin, Rout) >= amountOut. *)
Theorem inverse_then_forward_covers (amountOut Rin Rout : Z) :
  0 < Rin -> 0 < Rout -> 0 < amountOut < Rout ->
  exists amountIn out,
    calculateEtherSethInputFromOutput amountOut Rin Rout = Ok amountIn /\
    calculateEtherSethOutputFromInput amountIn Rin Rout = Ok out /\
    amountOut <= out.
Proof.
  intros HRin HRout Hout.
  assert (Hrange : 0 <= amountOut < Rout) by lia.
  destruct (inverse_covers Rin Rout HRin amountOut Hrange)
    as [Hpos Hcover].
  eexists; eexists.
  split; [apply inverse_value; assumption |].
  split; [apply forward_value; lia |].
  apply Z.div_le_lower_bound; [nia |].
  exact Hcover.
Qed.

Lemma inverse_then_forward_covers_witness :
  (0 < 1000 /\ 0 < 2000 /\ 0 < 100 < 2000) /\
  exists amountIn out,
    calculateEtherSethInputFromOutput 100 1000 2000 = Ok amountIn /\
    calculateEtherSethOutputFromInput amountIn 1000 2000 = Ok out /\
    100 <= out.
Proof.
  split; [lia |].
  apply (inverse_then_forward_covers 100 1000 2000); lia.
Defined.

(** C4.  For reserves [Rin > 0], [Rout > 0] and input amounts strictly
    between 0 and MAX_AMOUNT, the forward pricing function returns an
    output strictly below [Rout], and a larger input never yields a
    smaller output for the same reserves. *)
Theorem forward_below_reserve_and_monotone (Rin Rout a1 a2 : Z) :
  0 < Rin -> 0 < Rout ->
  0 < a1 < MaxUint256 -> 0 < a2 < MaxUint256 ->
  exists out1 out2,
    calculateEtherSethOutputFromInput a1 Rin Rout = Ok out1 /\
    calculateEtherSethOutputFromInput a2 Rin Rout = Ok out2 /\
    out1 < Rout /\ out2 < Rout /\
    (a1 <= a2 -> out1 <= out2).
Proof.
  intros HRin HRout H1 H2.
  eexists; eexists.
  split; [apply forward_value; lia |].
  split; [apply forward_value; lia |].
  split; [apply forward_below_reserve; lia |].
  split; [apply forward_below_reserve; lia |].
  intros Hle. apply forward_monotone; lia.
Qed.

Lemma forward_below_reserve_and_monotone_witness :
  (0 < 1000000000 /\ 0 < 2000000000 /\
   0 < 1000000 < MaxUint256 /\ 0 < 2000000 < MaxUint256) /\
  exists out1 out2,
    calculateEtherSethOutputFromInput 1000000 1000000000 2000000000
    = Ok out1 /\
    calculateEtherSethOutputFromInput 2000000 1000000000 2000000000
    = Ok out2 /\
    out1 < 2000000000 /\ out2 < 2000000000 /\
    (1000000 <= 2000000 -> out1 <= out2).
Proof.
  assert (Hmax : 2000000 < MaxUint256) by (vm_compute; reflexivity).
  split; [lia |].
  apply (forward_below_reserve_and_monotone
           1000000000 2000000000 1000000 2000000); lia.
Defined.

(** ** The inverse pricing function beyond the reserve *)

(** At [amountOut = Rout] the divisor is zero and the division throws;
    the recomputation catches it and sets the liquidity error. *)
Lemma inverse_at_reserve_throws (Rin Rout : Z) :
  calculateEtherSethInputFromOutput Rout Rin Rout = Throw DivisionByZero.
Proof.
  unfold calculateEtherSethInputFromOutput, BigNumber.div, BigNumber.sub,
    BigNumber.mul, bind.
  replace ((Rout - Rout) * 997) with 0 by ring.
  reflexivity.
Qed.

(** Beyond the reserve the divisor is negative: the function returns a
    number, and a non-positive one when the reserves are positive. *)
Lemma inverse_beyond_reserve (amountOut Rin Rout : Z) :
  0 < Rin -> 0 <= Rout -> Rout < amountOut ->
  exists amountIn,
    calculateEtherSethInputFromOutput amountOut Rin Rout = Ok amountIn /\
    amountIn <= 0.
Proof.
  intros HRin HRout Hout.
  unfold calculateEtherSethInputFromOutput, BigNumber.div, BigNumber.sub,
    BigNumber.mul, BigNumber.add, bind.
  destruct (Z.eqb_spec ((Rout - amountOut) * 997) 0) as [E | _]; [lia |].
  eexists; split; [reflexivity |].
  set (n := Rin * amountOut * 1000).
  set (d := (amountOut - Rout) * 997).
  replace ((Rout - amountOut) * 997) with (- d) by (unfold d; ring).
  rewrite Z.quot_opp_r by (unfold d; lia).
  assert (Hd : 0 < d) by (unfold d; lia).
  assert (Hnd : d <= n) by (unfold n, d; nia).
  rewrite Z.quot_div_nonneg by (unfold n; nia || lia).
  assert (1 <= n / d).
  { apply Z.div_le_lower_bound; lia. }
  lia.
Qed.

(** The recomputation for an ETH to sETH swap with the output as the
    independent field, at an amount equal to the sETH reserve: the
    division throws, nothing is dispatched and the liquidity error is
    set. *)
Lemma recomputation_at_reserve_sets_error (amount reserveETH : Z) :
  dependentValueEffect (Some amount) (Some reserveETH) (Some amount) OUTPUT
    (getSwapType (Some "ETH") (Some "sETH")) (Some "ETH") (Some "sETH")
  = {| effectLog := emptyLog; liquidityError := true |}.
Proof.
  unfold dependentValueEffect, dependentValueTry, outputFieldBranch.
  cbn [getSwapType truthy strictEq negb orb String.eqb Ascii.eqb Bool.eqb
       formatBytes32String String.length Z.of_nat Z.ltb Z.compare
       Pos.of_succ_nat Pos.succ Pos.compare Pos.compare_cont
       liftR bindE Field_eqb].
  rewrite inverse_at_reserve_throws.
  reflexivity.
Qed.

(** C3.  The inverse pricing function at a requested output beyond the
    reserve: with [inputReserve = 5], [outputReserve = 2] and
    [outputAmount = 3] it returns the number [-14] instead of signalling
    insufficient liquidity, and the recomputation for an ETH to sETH swap
    with the output as the independent field stores that number as the
    dependent value without setting the liquidity error. *)
Theorem inverse_beyond_reserve_returns_number :
  calculateEtherSethInputFromOutput 3 5 2 = Ok (-14) /\
  dependentValueEffect (Some 3) (Some 5) (Some 2) OUTPUT
    (getSwapType (Some "ETH") (Some "sETH")) (Some "ETH") (Some "sETH")
  = {| effectLog :=
         {| dispatched := [UPDATE_SLIPPAGE (Some (-14, 3));
                           UPDATE_DEPENDENT (Some (-14))];
            sent := [] |};
       liquidityError := false |}.
Proof.
  split; reflexivity.
Qed.

(** ** Slippage bounds *)

Lemma offset_value (value bps : Z) :
  0 <= value -> 0 <= bps ->
  BigNumber.div (BigNumber.mul value bps) 10000
  = Ok (value * bps / 10000).
Proof.
  intros Hv Hb.
  unfold BigNumber.div, BigNumber.mul.
  change (10000 =? 0) with false. cbv iota.
  rewrite Z.quot_div_nonneg by nia.
  reflexivity.
Qed.

Lemma offset_within_value (value bps : Z) :
  0 <= value -> 0 <= bps <= 10000 ->
  0 <= value * bps / 10000 <= value.
Proof.
  intros Hv Hb.
  split.
  - apply Z.div_pos; nia.
  - apply Z.div_le_upper_bound; nia.
Qed.

(** C5, as the code has it.  For a present value with
    [0 <= value <= MAX_AMOUNT] and a deviation of [bps] basis points in
    [0, 10000] (the token one or the plain one, as the flag selects),
    [calculateSlippageBounds] returns bounds with
    [minimum = max(0, value - floor(value*bps/10000))] and
    [maximum = min(MAX_AMOUNT, value + floor(value*bps/10000))], so that
    [minimum <= value <= maximum], [minimum >= 0] and
    [maximum <= MAX_AMOUNT]; for an absent value it returns the empty
    result. *)
Theorem slippage_bounds_within_ceiling
    (value : Z) (token : bool) (tokenAllowedSlippage allowedSlippage : Z) :
  0 <= value <= MaxUint256 ->
  0 <= (if token then tokenAllowedSlippage else allowedSlippage) <= 10000 ->
  calculateSlippageBounds None token tokenAllowedSlippage allowedSlippage
  = Ok None /\
  exists b,
    calculateSlippageBounds (Some value) token
      tokenAllowedSlippage allowedSlippage = Ok (Some b) /\
    minimum b
    = Z.max 0
        (value
         - value * (if token then tokenAllowedSlippage else allowedSlippage)
           / 10000) /\
    maximum b
    = Z.min MaxUint256
        (value
         + value * (if token then tokenAllowedSlippage else allowedSlippage)
           / 10000) /\
    minimum b <= value <= maximum b /\
    0 <= minimum b /\
    maximum b <= MaxUint256.
Proof.
  intros Hv Hb.
  split; [reflexivity |].
  unfold calculateSlippageBounds.
  destruct token;
    (pose proof (offset_within_value value _ (proj1 Hv) Hb) as Hoff;
     rewrite (offset_value value _ (proj1 Hv) (proj1 Hb));
     cbn [bind];
     eexists; split; [reflexivity |];
     cbn [minimum maximum];
     unfold BigNumber.lt, BigNumber.gt, BigNumber.sub, BigNumber.add;
     match type of Hoff with
     | 0 <= ?o <= _ => generalize dependent o; intros offset Hoff
     end;
     destruct (Z.ltb_spec (value - offset) 0);
     destruct (Z.ltb_spec MaxUint256 (value + offset)); lia).
Qed.

Lemma slippage_bounds_within_ceiling_witness :
  (0 <= 1993006 <= MaxUint256 /\ 0 <= 100 <= 10000) /\
  calculateSlippageBounds None false 100 100 = Ok None /\
  exists b,
    calculateSlippageBounds (Some 1993006) false 100 100 = Ok (Some b) /\
    minimum b = Z.max 0 (1993006 - 1993006 * 100 / 10000) /\
    maximum b = Z.min MaxUint256 (1993006 + 1993006 * 100 / 10000) /\
    minimum b <= 1993006 <= maximum b /\
    0 <= minimum b /\
    maximum b <= MaxUint256.
Proof.
  assert (Hmax : 1993006 <= MaxUint256) by (vm_compute; discriminate).
  split; [lia |].
  apply (slippage_bounds_within_ceiling 1993006 false 100 100); lia.
Defined.

(** C5, as stated, fails above the ceiling: the value [2^256] is
    non-negative and 100 basis points are in range, yet the maximum is
    clamped to MAX_AMOUNT and lies below the value. *)
Lemma slippage_bounds_maximum_below_value :
  0 <= 2 ^ 256 /\ 0 <= 100 <= 10000 /\
  exists b,
    calculateSlippageBounds (Some (2 ^ 256)) false 100 100 = Ok (Some b) /\
    maximum b = MaxUint256 /\
    ~ (2 ^ 256 <= maximum b).
Proof.
  split; [vm_compute; discriminate |].
  split; [lia |].
  eexists; split; [vm_compute; reflexivity |].
  split; [reflexivity |].
  vm_compute. intros H; apply H; reflexivity.
Qed.

(** ** The swap-type classifier *)

Lemma strictEq_literal (x lit : string) :
  x <> lit -> strictEq (Some x) lit = false.
Proof.
  intros H. unfold strictEq. apply String.eqb_neq. exact H.
Qed.

Lemma truthy_set (x : string) : x <> "" -> truthy (Some x) = true.
Proof.
  intros H. unfold truthy.
  apply Bool.negb_true_iff, String.eqb_neq. exact H.
Qed.

(** C6.  The classifier returns null when either currency is unset; it
    maps (native, bridge) to ETH_TO_SETH, (bridge, native) to
    SETH_TO_ETH, (native, otherX) to ETH_TO_OTHERSTOKEN, (otherX, native)
    to OTHERSTOKEN_TO_ETH and (otherX, otherY) to STOKEN_TO_STOKEN for
    distinct otherX, otherY that are neither native nor bridge; an input
    equal to the bridge asset with such an output is STOKEN_TO_STOKEN. *)
Theorem getSwapType_classifies
    (unset any : option string) (otherX otherY : string) :
  truthy unset = false ->
  otherSymbol otherX -> otherSymbol otherY -> otherX <> otherY ->
  getSwapType unset any = None /\
  getSwapType any unset = None /\
  getSwapType (Some "ETH") (Some "sETH") = Some ETH_TO_SETH /\
  getSwapType (Some "sETH") (Some "ETH") = Some SETH_TO_ETH /\
  getSwapType (Some "ETH") (Some otherX) = Some ETH_TO_OTHERSTOKEN /\
  getSwapType (Some otherX) (Some "ETH") = Some OTHERSTOKEN_TO_ETH /\
  getSwapType (Some otherX) (Some otherY) = Some STOKEN_TO_STOKEN /\
  getSwapType (Some "sETH") (Some otherX) = Some STOKEN_TO_STOKEN.
Proof.
  intros Hunset (Hx0 & HxE & HxS) (Hy0 & HyE & HyS) Hxy.
  unfold getSwapType.
  rewrite Hunset.
  rewrite (truthy_set otherX Hx0), (truthy_set otherY Hy0).
  rewrite !(strictEq_literal otherX) by assumption.
  rewrite !(strictEq_literal otherY) by assumption.
  repeat split; try reflexivity.
  destruct (truthy any); reflexivity.
Qed.

Lemma getSwapType_classifies_witness :
  (truthy (Some "") = false /\
   otherSymbol "sUSD" /\ otherSymbol "sBTC" /\ "sUSD" <> "sBTC") /\
  getSwapType (Some "") (Some "ETH") = None /\
  getSwapType (Some "ETH") (Some "") = None /\
  getSwapType (Some "ETH") (Some "sETH") = Some ETH_TO_SETH /\
  getSwapType (Some "sETH") (Some "ETH") = Some SETH_TO_ETH /\
  getSwapType (Some "ETH") (Some "sUSD") = Some ETH_TO_OTHERSTOKEN /\
  getSwapType (Some "sUSD") (Some "ETH") = Some OTHERSTOKEN_TO_ETH /\
  getSwapType (Some "sUSD") (Some "sBTC") = Some STOKEN_TO_STOKEN /\
  getSwapType (Some "sETH") (Some "sUSD") = Some STOKEN_TO_STOKEN.
Proof.
  assert (Hx : otherSymbol "sUSD") by (repeat split; discriminate).
  assert (Hy : otherSymbol "sBTC") by (repeat split; discriminate).
  assert (Hxy : "sUSD" <> "sBTC") by discriminate.
  split;
    [split; [reflexivity | split; [exact Hx | split; [exact Hy | exact Hxy]]]
    |].
  apply (getSwapType_classifies (Some "") (Some "ETH") "sUSD" "sBTC");
    [reflexivity | exact Hx | exact Hy | exact Hxy].
Defined.

(** ** The reducer *)

(** One [SELECT_CURRENCY] action, from any state, leaves two currencies
    that differ whenever both are set. *)
Lemma select_currency_establishes (s : SwapState) (field : Field)
    (currency : string) :
  exists s',
    swapStateReducer s (SELECT_CURRENCY field currency) = Ok s' /\
    currenciesDistinct s'.
Proof.
  unfold swapStateReducer.
  destruct field; cbn [Field_eqb];
    match goal with
    | |- context [String.eqb ?a ?b] => destruct (String.eqb_spec a b) as [E | E]
    end;
    eexists; (split; [reflexivity |]);
    unfold currenciesDistinct; cbn; intros Hin Hout;
    try discriminate; exact E.
Qed.

Lemma select_currencies_establish (rest : list (Field * string)) :
  forall (s : SwapState) (first : Field * string),
  exists s',
    reduceAll s (selectCurrencies (first :: rest)) = Ok s' /\
    currenciesDistinct s'.
Proof.
  induction rest as [| next rest IH]; intros s [field currency];
    destruct (select_currency_establishes s field currency)
      as (s1 & Hstep & Hinv).
  - exists s1. unfold selectCurrencies. cbn [map fst snd reduceAll].
    rewrite Hstep. split; [reflexivity | exact Hinv].
  - destruct (IH s1 next) as (s' & Hrun & Hinv').
    exists s'. split; [| exact Hinv'].
    change (selectCurrencies ((field, currency) :: next :: rest))
      with (SELECT_CURRENCY field currency
              :: selectCurrencies (next :: rest)).
    cbn [reduceAll]. rewrite Hstep. cbn [bind]. exact Hrun.
Qed.

(** A sequence of [SELECT_CURRENCY] actions, the empty one included,
    keeps the currencies distinct when they were. *)
Lemma select_currencies_preserve (choices : list (Field * string)) :
  forall s : SwapState,
    currenciesDistinct s ->
    exists s',
      reduceAll s (selectCurrencies choices) = Ok s' /\
      currenciesDistinct s'.
Proof.
  destruct choices as [| first rest]; intros s Hinv.
  - exists s. split; [reflexivity | exact Hinv].
  - apply select_currencies_establish.
Qed.

(** The initial state takes its currencies from the URL as they are:
    with [outputCurrency=ETH] and no input currency both are ETH. *)
Lemma initial_currencies_may_coincide :
  exists s,
    getInitialSwapState
      (Some {| initialCurrency := None; inputCurrencyURL := None;
               outputCurrencyURL := Some "ETH";
               exactFieldURL := None; exactAmountURL := None |}) = Ok s /\
    ~ currenciesDistinct s.
Proof.
  eexists. split; [reflexivity |].
  intros H. apply H; reflexivity.
Qed.

(** C7.  From every state of the form, reachable ones included, after
    any sequence of SelectCurrency actions applied by the reducer (a
    first action and any that follow) the input and output currencies
    are unequal whenever both are set; from a state where they are, this
    also holds after the empty sequence; and a SelectCurrency action
    whose currency is the one held by the other field sets the named
    field and clears the other field's currency. *)
Theorem select_currency_keeps_currencies_distinct
    (s : SwapState) (first : Field * string) (rest : list (Field * string))
    (field : Field) (currency : string) :
  (exists s',
     reduceAll s (selectCurrencies (first :: rest)) = Ok s' /\
     currenciesDistinct s') /\
  (currenciesDistinct s ->
   exists s',
     reduceAll s (selectCurrencies rest) = Ok s' /\
     currenciesDistinct s') /\
  ((if Field_eqb field INPUT then outputCurrency s else inputCurrency s)
   = currency ->
   exists s',
     swapStateReducer s (SELECT_CURRENCY field currency) = Ok s' /\
     (if Field_eqb field INPUT then inputCurrency s' else outputCurrency s')
     = currency /\
     (if Field_eqb field INPUT then outputCurrency s' else inputCurrency s')
     = "").
Proof.
  split; [apply select_currencies_establish |].
  split; [apply select_currencies_preserve |].
  intros Hclash.
  unfold swapStateReducer.
  destruct field; cbn [Field_eqb] in *; subst currency;
    rewrite String.eqb_refl;
    eexists; (split; [reflexivity |]); cbn; split; reflexivity.
Qed.

Lemma select_currency_keeps_currencies_distinct_witness :
  (currenciesDistinct quotedState /\ outputCurrency quotedState = sUSD) /\
  (exists s',
     reduceAll quotedState
       (selectCurrencies [(INPUT, sUSD); (OUTPUT, sUSD)]) = Ok s' /\
     currenciesDistinct s') /\
  (exists s',
     reduceAll quotedState (selectCurrencies [(OUTPUT, sUSD)]) = Ok s' /\
     currenciesDistinct s') /\
  (exists s',
     swapStateReducer quotedState (SELECT_CURRENCY INPUT sUSD) = Ok s' /\
     inputCurrency s' = sUSD /\
     outputCurrency s' = "").
Proof.
  assert (Hinv : currenciesDistinct quotedState)
    by (intros _ _; discriminate).
  assert (Hclash : outputCurrency quotedState = sUSD) by reflexivity.
  destruct (select_currency_keeps_currencies_distinct
              quotedState (INPUT, sUSD) [(OUTPUT, sUSD)] INPUT sUSD)
    as (Hall & Hkeep & Hclear).
  split; [split; [exact Hinv | exact Hclash] |].
  split; [exact Hall |].
  split; [exact (Hkeep Hinv) | exact (Hclear Hclash)].
Defined.

(** C8.  [UPDATE_INDEPENDENT] stores the raw text as the independent
    value and marks the given field as independent; the dependent value
    is kept when the new text equals the previous independent value and
    cleared when it differs; applied a second time in a row, the same
    action changes nothing, so the dependent value is unchanged. *)
Theorem update_independent_short_circuit
    (s : SwapState) (field : Field) (value : string) :
  exists s1,
    swapStateReducer s (UPDATE_INDEPENDENT field value) = Ok s1 /\
    independentValue s1 = value /\
    independentField s1 = field /\
    dependentValue s1
    = (if (value =? independentValue s)%string
       then dependentValue s else None) /\
    inputCurrency s1 = inputCurrency s /\
    outputCurrency s1 = outputCurrency s /\
    exists s2,
      swapStateReducer s1 (UPDATE_INDEPENDENT field value) = Ok s2 /\
      dependentValue s2 = dependentValue s1 /\
      s2 = s1.
Proof.
  eexists. split; [reflexivity |].
  cbn [independentValue independentField dependentValue
       inputCurrency outputCurrency].
  repeat (split; [reflexivity |]).
  eexists. split; [reflexivity |].
  cbn [independentValue independentField dependentValue
       inputCurrency outputCurrency slippageInputValue slippageOutputValue].
  rewrite String.eqb_refl.
  split; reflexivity.
Qed.

(** C9.  The reducer on an unrecognized action: the default case calls
    [getInitialSwapState] without its argument, which throws a
    [TypeError] instead of returning the initial state. *)
Theorem unrecognized_action_throws (s : SwapState) (type : string) :
  swapStateReducer s (UNRECOGNIZED type) = Throw TypeError.
Proof.
  reflexivity.
Qed.

(** C10.  [SELECT_CURRENCY] changes the two currency fields only: the
    independent value, the dependent value and the independent field
    (and the stored bridging legs) are as before. *)
Theorem select_currency_frame
    (s : SwapState) (field : Field) (currency : string) :
  exists s',
    swapStateReducer s (SELECT_CURRENCY field currency) = Ok s' /\
    independentValue s' = independentValue s /\
    dependentValue s' = dependentValue s /\
    independentField s' = independentField s /\
    slippageInputValue s' = slippageInputValue s /\
    slippageOutputValue s' = slippageOutputValue s.
Proof.
  unfold swapStateReducer.
  destruct (_ =? _)%string; eexists; (split; [reflexivity |]);
    cbn; repeat split; reflexivity.
Qed.

(** ** Answers of queries that were superseded *)

(** The session in which "5" is typed into the input field and then
    replaced by "7" while the quote for "5" is still awaited: the answer
    to the first query, arriving afterwards, becomes the dependent
    value. *)
Lemma superseded_answer_trace :
  exists c c' p c'',
    play session sessionArgs [User (UPDATE_INDEPENDENT INPUT "5")] = Ok c /\
    nth_error (inFlight c) 0 = Some p /\
    independentValueParsed c = Some (requestedFor p) /\
    userDispatch session c (UPDATE_INDEPENDENT INPUT "7") = Ok c' /\
    independentValueParsed c' = Some (7 * 10 ^ 18) /\
    requestedFor p = 5 * 10 ^ 18 /\
    continuation p = thenUpdateDependent /\
    dependentValue (swapState c') = None /\
    resolve c' 0 42 = Ok c'' /\
    dependentValue (swapState c'') = Some 42.
Proof.
  do 4 eexists.
  split; [vm_compute; reflexivity |].
  split; [vm_compute; reflexivity |].
  split; [vm_compute; reflexivity |].
  split; [vm_compute; reflexivity |].
  repeat split; vm_compute; reflexivity.
Qed.

(** C2, as stated, fails: in the session above the answer to the query
    sent for the amount 5 arrives after the amount has become 7 and sets
    the dependent value to 42. *)
Lemma stale_answer_sets_dependent_value : ~ staleResultsDropped session.
Proof.
  intros Hdrop.
  destruct superseded_answer_trace
    as (c & c' & p & c'' & Hc & Hp & Hfor & Hc' & Hnew & Hold & _
        & Hbefore & Hc'' & Hafter).
  assert (Hreach : reachable session c).
  { exists sessionArgs, [User (UPDATE_INDEPENDENT INPUT "5")].
    split; [| exact Hc].
    constructor; [exact I | constructor]. }
  assert (Hchanged : independentValueParsed c' <> independentValueParsed c).
  { rewrite Hnew, Hfor, Hold. vm_compute. discriminate. }
  pose proof (Hdrop c INPUT "7" c' 0%nat p 42 c''
                Hreach Hp Hfor Hc' Hchanged Hc'') as Hsame.
  rewrite Hbefore, Hafter in Hsame.
  discriminate.
Qed.

Lemma nth_error_removeNth_length {A : Type} (n : nat) (l : list A) (x : A) :
  nth_error l n = Some x -> S (length (removeNth n l)) = length l.
Proof.
  revert l; induction n as [| n IH]; intros [| y l] H; try discriminate.
  - reflexivity.
  - cbn in *. f_equal. apply IH. exact H.
Qed.

(** C2, as the code has it.  An [UPDATE_INDEPENDENT] action with a new
    raw text clears the dependent value in the reducer, and the cleanup
    of the superseded recomputation clears it again; a query in flight is
    not cancelled and its answer is not compared with the current
    amount: when the answer to a query for the dependent value arrives
    it becomes the dependent value if it is positive and changes nothing
    if it is not, whatever the parsed amount is at that moment, and the
    query leaves the list of queries in flight. *)
Theorem answer_stored_whatever_the_amount
    (s : SwapState) (field : Field) (value : string)
    (c : Component) (n : nat) (p : Pending) (response : Z) :
  (value <> independentValue s ->
   exists s1,
     swapStateReducer s (UPDATE_INDEPENDENT field value) = Ok s1 /\
     dependentValue s1 = None) /\
  (exists s2,
     reduceAll s dependentValueCleanup = Ok s2 /\
     dependentValue s2 = None) /\
  (nth_error (inFlight c) n = Some p ->
   continuation p = thenUpdateDependent ->
   exists c',
     resolve c n response = Ok c' /\
     dependentValue (swapState c')
     = (if response <=? 0 then dependentValue (swapState c)
        else Some response) /\
     independentValueParsed c' = independentValueParsed c /\
     S (length (inFlight c')) = length (inFlight c)).
Proof.
  split; [| split].
  - intros Hnew. eexists. split; [reflexivity |].
    cbn [dependentValue].
    destruct (String.eqb_spec value (independentValue s)) as [E | _];
      [contradiction | reflexivity].
  - eexists. split; reflexivity.
  - intros Hp Hk.
    unfold resolve. rewrite Hp, Hk.
    unfold runContinuation, BigNumber.lte.
    destruct (response <=? 0); eexists;
      (split; [reflexivity |]); cbn;
      (split; [reflexivity |]); (split; [reflexivity |]);
      apply (nth_error_removeNth_length n _ p Hp).
Qed.

Lemma answer_stored_whatever_the_amount_witness :
  ("7" <> independentValue quotedState /\
   nth_error (inFlight supersededComponent) 0 = Some earlierQuery /\
   continuation earlierQuery = thenUpdateDependent) /\
  (exists s1,
     swapStateReducer quotedState (UPDATE_INDEPENDENT INPUT "7") = Ok s1 /\
     dependentValue s1 = None) /\
  (exists c',
     resolve supersededComponent 0 42 = Ok c' /\
     dependentValue (swapState c')
     = (if 42 <=? 0 then dependentValue (swapState supersededComponent)
        else Some 42) /\
     independentValueParsed c' = independentValueParsed supersededComponent /\
     S (length (inFlight c')) = length (inFlight supersededComponent)).
Proof.
  assert (Hnew : "7" <> independentValue quotedState) by discriminate.
  assert (Hp : nth_error (inFlight supersededComponent) 0 = Some earlierQuery)
    by reflexivity.
  assert (Hk : continuation earlierQuery = thenUpdateDependent)
    by reflexivity.
  destruct (answer_stored_whatever_the_amount
              quotedState INPUT "7" supersededComponent 0%nat earlierQuery 42)
    as (Hclear & _ & Hanswer).
  split; [split; [exact Hnew | split; [exact Hp | exact Hk]] |].
  split; [exact (Hclear Hnew) | exact (Hanswer Hp Hk)].
Defined.

(* ===================================================================== *)
(** * Further properties *)
(* ===================================================================== *)

(** ** The reducer on the actions it knows *)

Lemma recognized_step (s : SwapState) (a : Action) :
  recognized a -> exists s', swapStateReducer s a = Ok s'.
Proof.
  destruct a; cbn; intros H; try contradiction; try (eexists; reflexivity).
  destruct (_ =? _)%string; eexists; reflexivity.
Qed.

Lemma recognized_step_distinct (s s' : SwapState) (a : Action) :
  recognized a ->
  currenciesDistinct s ->
  swapStateReducer s a = Ok s' ->
  currenciesDistinct s'.
Proof.
  intros Hrec Hinv Hstep.
  destruct a as [| field currency | field value | payload | payload | ty];
    try contradiction.
  - injection Hstep as <-. unfold currenciesDistinct in *. cbn.
    intros Hin Hout Heq. apply (Hinv Hout Hin). symmetry. exact Heq.
  - destruct (select_currency_establishes s field currency)
      as (s1 & Hs1 & Hinv1).
    rewrite Hs1 in Hstep. injection Hstep as <-. exact Hinv1.
  - injection Hstep as <-. exact Hinv.
  - injection Hstep as <-. exact Hinv.
  - injection Hstep as <-. exact Hinv.
Qed.

(** X1.  A sequence of actions the reducer has a case for never throws,
    and it keeps the two currencies different (whenever both are set)
    if they were so before. *)
Theorem recognized_actions_keep_currencies_distinct
    (actions : list Action) (s : SwapState) :
  Forall recognized actions ->
  currenciesDistinct s ->
  exists s',
    reduceAll s actions = Ok s' /\ currenciesDistinct s'.
Proof.
  intros Hall. revert s.
  induction Hall as [| a rest Ha _ IH]; intros s Hinv.
  - exists s. split; [reflexivity | exact Hinv].
  - destruct (recognized_step s a Ha) as (s1 & Hs1).
    destruct (IH s1 (recognized_step_distinct s s1 a Ha Hinv Hs1))
      as (s' & Hrun & Hinv').
    exists s'. cbn [reduceAll]. rewrite Hs1. cbn [bind].
    split; [exact Hrun | exact Hinv'].
Qed.

Lemma recognized_actions_keep_currencies_distinct_witness :
  (Forall recognized
     [FLIP_INDEPENDENT; SELECT_CURRENCY OUTPUT "ETH";
      UPDATE_INDEPENDENT OUTPUT "3"; UPDATE_DEPENDENT (Some 4)]
   /\ currenciesDistinct quotedState) /\
  exists s',
    reduceAll quotedState
      [FLIP_INDEPENDENT; SELECT_CURRENCY OUTPUT "ETH";
       UPDATE_INDEPENDENT OUTPUT "3"; UPDATE_DEPENDENT (Some 4)] = Ok s' /\
    currenciesDistinct s'.
Proof.
  assert (Hall : Forall recognized
                   [FLIP_INDEPENDENT; SELECT_CURRENCY OUTPUT "ETH";
                    UPDATE_INDEPENDENT OUTPUT "3"; UPDATE_DEPENDENT (Some 4)])
    by (repeat constructor).
  assert (Hinv : currenciesDistinct quotedState)
    by (intros _ _; discriminate).
  split; [split; [exact Hall | exact Hinv] |].
  exact (recognized_actions_keep_currencies_distinct _ quotedState Hall Hinv).
Defined.

(** X2.  [FLIP_INDEPENDENT] exchanges the two currencies, moves the
    independent side to the other field and clears the dependent value;
    applied twice it gives back the independent field, both currencies,
    the independent value and the stored legs, with the dependent value
    left empty. *)
Theorem flip_independent_twice (s : SwapState) :
  exists s1 s2,
    swapStateReducer s FLIP_INDEPENDENT = Ok s1 /\
    swapStateReducer s1 FLIP_INDEPENDENT = Ok s2 /\
    inputCurrency s1 = outputCurrency s /\
    outputCurrency s1 = inputCurrency s /\
    independentField s1 <> independentField s /\
    dependentValue s1 = None /\
    s2 = {| independentValue := independentValue s;
            dependentValue := None;
            independentField := independentField s;
            inputCurrency := inputCurrency s;
            outputCurrency := outputCurrency s;
            slippageInputValue := slippageInputValue s;
            slippageOutputValue := slippageOutputValue s |}.
Proof.
  eexists; eexists.
  split; [reflexivity |].
  split; [reflexivity |].
  cbn.
  repeat split; try reflexivity.
  - destruct (independentField s); discriminate.
  - destruct (independentField s); reflexivity.
Qed.

(** X3.  The initial state always has an input currency (ETH unless the
    URL names one) and no dependent value; it has an independent value
    only when the URL gives both the exact field and the exact amount,
    and then it is that amount; its output currency is unset exactly
    when neither the URL nor the page names one. *)
Theorem initial_state_shape (args : InitialArgs) :
  exists s,
    getInitialSwapState (Some args) = Ok s /\
    isSet (inputCurrency s) = true /\
    dependentValue s = None /\
    slippageInputValue s = None /\
    slippageOutputValue s = None /\
    (independentValue s <> "" ->
     truthy (exactFieldURL args) = true /\
     exactAmountURL args = Some (independentValue s)) /\
    (isSet (outputCurrency s) = false <->
     truthy (outputCurrencyURL args) = false /\
     truthy (initialCurrency args) = false).
Proof.
  eexists. split; [reflexivity |].
  cbn [inputCurrency dependentValue slippageInputValue slippageOutputValue
       independentValue outputCurrency].
  split.
  { destruct (inputCurrencyURL args) as [i |]; cbn; [| reflexivity].
    destruct (String.eqb_spec i ""); cbn; [reflexivity |].
    apply Bool.negb_true_iff, String.eqb_neq. assumption. }
  do 3 (split; [reflexivity |]).
  split.
  { intros Hset.
    destruct (truthy (exactFieldURL args)); cbn in Hset;
      [| contradiction Hset; reflexivity].
    destruct (exactAmountURL args) as [a |]; cbn in Hset |- *.
    - destruct (String.eqb_spec a ""); cbn in Hset;
        [contradiction Hset; reflexivity | split; reflexivity].
    - contradiction Hset; reflexivity. }
  unfold isSet.
  destruct (outputCurrencyURL args) as [o |]; cbn.
  - destruct (String.eqb_spec o "") as [-> | Ho]; cbn.
    + destruct (initialCurrency args) as [c |]; cbn.
      * destruct (String.eqb_spec c "") as [-> | Hc]; cbn.
        -- split; intros; [split |]; reflexivity.
        -- split; [intros H | intros [_ H]]; try discriminate.
           apply Bool.negb_false_iff, String.eqb_eq in H. contradiction.
      * split; intros; [split |]; reflexivity.
    + split; [intros H | intros [H _]]; try discriminate.
      apply Bool.negb_false_iff, String.eqb_eq in H. contradiction.
  - destruct (initialCurrency args) as [c |]; cbn.
    + destruct (String.eqb_spec c "") as [-> | Hc]; cbn.
      * split; intros; [split |]; reflexivity.
      * split; [intros H | intros [_ H]]; try discriminate.
        apply Bool.negb_false_iff, String.eqb_eq in H. contradiction.
    + split; intros; [split |]; reflexivity.
Qed.

(** ** One run of the recomputation *)

(** Case analysis of a run: the keys and the prices it computes are
    either values or throws. *)
Ltac effect_cases :=
  unfold dependentValueTry, inputFieldBranch, outputFieldBranch;
  repeat match goal with
  | |- context [formatBytes32String ?x] =>
      lazymatch x with
      | Some "sETH" => change (formatBytes32String x) with (@Ok string "sETH")
      | _ => let r := fresh "key" in
             destruct (formatBytes32String x) as [r | r]
      end
  | |- context [calculateEtherSethOutputFromInput ?a ?b ?c] =>
      let r := fresh "out" in
      destruct (calculateEtherSethOutputFromInput a b c) as [r | r]
  | |- context [calculateEtherSethInputFromOutput ?a ?b ?c] =>
      let r := fresh "inp" in
      destruct (calculateEtherSethInputFromOutput a b c) as [r | r]
  end.

Lemma try_log_shape
    (amount rE rT : Z) (field : Field) (st : option SwapType)
    (iS oS : option string) :
  let l := fst (dependentValueTry amount rE rT field st iS oS emptyLog) in
  Forall fromEffect (dispatched l) /\
  Forall (fun p => requestedFor p = amount) (sent l) /\
  (length (sent l) <= 2)%nat /\
  (dependentDispatches l + dependentQueries l <= 1)%nat.
Proof.
  destruct field; destruct st as [[] |]; effect_cases; cbn.
  all: repeat split; repeat constructor.
Qed.

Lemma effect_log_is_try_log
    (amount rE rT : Z) (field : Field) (st : option SwapType)
    (iS oS : option string) :
  effectLog (dependentValueEffect (Some amount) (Some rE) (Some rT)
               field st iS oS)
  = fst (dependentValueTry amount rE rT field st iS oS emptyLog).
Proof.
  unfold dependentValueEffect.
  destruct (dependentValueTry amount rE rT field st iS oS emptyLog)
    as [l [u | e]]; reflexivity.
Qed.

Lemma effect_log_shape
    (parsed rE rT : option Z) (field : Field) (st : option SwapType)
    (iS oS : option string) :
  let l := effectLog (dependentValueEffect parsed rE rT field st iS oS) in
  Forall fromEffect (dispatched l) /\
  Forall (fun p => parsed = Some (requestedFor p)) (sent l) /\
  (length (sent l) <= 2)%nat /\
  (dependentDispatches l + dependentQueries l <= 1)%nat.
Proof.
  destruct parsed as [amount |], rE as [rE |], rT as [rT |];
    try solve [cbn; repeat split; repeat constructor].
  cbv zeta. rewrite effect_log_is_try_log.
  destruct (try_log_shape amount rE rT field st iS oS)
    as (Hd & Hs & Hn & Hone).
  repeat split; try assumption.
  eapply Forall_impl; [| exact Hs].
  intros p Hp. cbn in Hp. rewrite Hp. reflexivity.
Qed.

(** X4.  Whatever its inputs, one run of the recomputation dispatches
    only [UPDATE_DEPENDENT] and [UPDATE_SLIPPAGE] actions, sends at most
    two queries, each sent for the parsed amount of that run, and
    provides the dependent value at most once: by its own dispatch or by
    one query whose answer will set it, never both. *)
Theorem effect_run_shape
    (parsed rE rT : option Z) (field : Field) (st : option SwapType)
    (iS oS : option string) :
  let l := effectLog (dependentValueEffect parsed rE rT field st iS oS) in
  Forall fromEffect (dispatched l) /\
  Forall (fun p => parsed = Some (requestedFor p)) (sent l) /\
  (length (sent l) <= 2)%nat /\
  (dependentDispatches l + dependentQueries l <= 1)%nat.
Proof.
  exact (effect_log_shape parsed rE rT field st iS oS).
Qed.

(** X5.  A run for a known swap type that does not end in the liquidity
    error provides the dependent value exactly once: it dispatches it
    itself for the two swaps between ETH and sETH, and otherwise sends
    exactly one query whose answer will.  A run that ends in the
    liquidity error has dispatched nothing and sent nothing. *)
Theorem effect_single_source
    (amount rE rT : Z) (field : Field) (t : SwapType)
    (iS oS : option string) :
  let run :=
    dependentValueEffect (Some amount) (Some rE) (Some rT)
      field (Some t) iS oS in
  (liquidityError run = false ->
   dependentDispatches (effectLog run) = (if direct t then 1 else 0)%nat /\
   dependentQueries (effectLog run) = (if direct t then 0 else 1)%nat) /\
  (liquidityError run = true -> effectLog run = emptyLog).
Proof.
  unfold dependentValueEffect.
  destruct field; destruct t; effect_cases; cbn;
    (split; [intros H; try discriminate; split; reflexivity
            | intros H; try discriminate; reflexivity]).
Qed.

Lemma effect_single_source_witness :
  liquidityError
    (dependentValueEffect (Some 5) (Some 1000) (Some 2000)
       INPUT (Some ETH_TO_OTHERSTOKEN) (Some "ETH") (Some "sUSD")) = false /\
  dependentDispatches
    (effectLog
       (dependentValueEffect (Some 5) (Some 1000) (Some 2000)
          INPUT (Some ETH_TO_OTHERSTOKEN) (Some "ETH") (Some "sUSD")))
  = 0%nat /\
  dependentQueries
    (effectLog
       (dependentValueEffect (Some 5) (Some 1000) (Some 2000)
          INPUT (Some ETH_TO_OTHERSTOKEN) (Some "ETH") (Some "sUSD")))
  = 1%nat.
Proof.
  assert (Hok : liquidityError
                  (dependentValueEffect (Some 5) (Some 1000) (Some 2000)
                     INPUT (Some ETH_TO_OTHERSTOKEN)
                     (Some "ETH") (Some "sUSD")) = false)
    by reflexivity.
  split; [exact Hok |].
  exact (proj1 (effect_single_source 5 1000 2000 INPUT ETH_TO_OTHERSTOKEN
                  (Some "ETH") (Some "sUSD")) Hok).
Defined.

Lemma format_short (x : string) :
  (String.length x <= 31)%nat -> formatBytes32String (Some x) = Ok x.
Proof.
  intros H. unfold formatBytes32String.
  destruct (Z.ltb_spec 31 (Z.of_nat (String.length x))); [lia | reflexivity].
Qed.

(** X6.  Selling a positive amount on the pool directly (the input is
    the independent field, reserves positive): the run stores the pair
    (amount, quote) as the bridging legs and then the quote as the
    dependent value, sends no query and sets no error; the quote is the
    forward price and lies in [0, output reserve).  ETH to sETH prices
    against (reserveETH, reserveToken), sETH to ETH against the reserves
    exchanged. *)
Theorem direct_input_quote (amount rE rT : Z) :
  0 < amount -> 0 < rE -> 0 < rT ->
  (exists out,
     calculateEtherSethOutputFromInput amount rE rT = Ok out /\
     0 <= out < rT /\
     dependentValueEffect (Some amount) (Some rE) (Some rT) INPUT
       (getSwapType (Some "ETH") (Some "sETH")) (Some "ETH") (Some "sETH")
     = {| effectLog :=
            {| dispatched := [UPDATE_SLIPPAGE (Some (amount, out));
                              UPDATE_DEPENDENT (Some out)];
               sent := [] |};
          liquidityError := false |}) /\
  (exists out,
     calculateEtherSethOutputFromInput amount rT rE = Ok out /\
     0 <= out < rE /\
     dependentValueEffect (Some amount) (Some rE) (Some rT) INPUT
       (getSwapType (Some "sETH") (Some "ETH")) (Some "sETH") (Some "ETH")
     = {| effectLog :=
            {| dispatched := [UPDATE_SLIPPAGE (Some (amount, out));
                              UPDATE_DEPENDENT (Some out)];
               sent := [] |};
          liquidityError := false |}).
Proof.
  intros Ha HE HT.
  assert (H0 : 0 <= amount) by lia.
  split; eexists;
    (split; [apply forward_value; lia |]);
    (split;
     [split; [apply Z.div_pos; nia | apply forward_below_reserve; lia] |]);
    unfold dependentValueEffect, dependentValueTry, inputFieldBranch.
  - change (getSwapType (Some "ETH") (Some "sETH")) with (Some ETH_TO_SETH).
    rewrite (forward_value rE rT) by lia. reflexivity.
  - change (getSwapType (Some "sETH") (Some "ETH")) with (Some SETH_TO_ETH).
    rewrite (forward_value rT rE) by lia. reflexivity.
Qed.

Lemma direct_input_quote_witness :
  (0 < 1000000 /\ 0 < 1000000000 /\ 0 < 2000000000) /\
  exists out,
    calculateEtherSethOutputFromInput 1000000 1000000000 2000000000
    = Ok out /\
    0 <= out < 2000000000 /\
    dependentValueEffect (Some 1000000) (Some 1000000000) (Some 2000000000)
      INPUT (getSwapType (Some "ETH") (Some "sETH"))
      (Some "ETH") (Some "sETH")
    = {| effectLog :=
           {| dispatched := [UPDATE_SLIPPAGE (Some (1000000, out));
                             UPDATE_DEPENDENT (Some out)];
              sent := [] |};
         liquidityError := false |}.
Proof.
  split; [lia |].
  apply (direct_input_quote 1000000 1000000000 2000000000); lia.
Defined.

(** X7.  Buying an amount below the reserve on the pool directly (the
    output is the independent field): the run stores (cost, amount) as
    the bridging legs and the cost as the dependent value, sends no
    query and sets no error; the cost is positive and selling it would
    yield at least the amount asked for.  ETH to sETH buys from
    reserveToken, sETH to ETH from reserveETH. *)
Theorem direct_output_quote (amount rE rT : Z) :
  0 < amount -> 0 < rE -> 0 < rT ->
  (amount < rT ->
   exists cost back,
     0 < cost /\
     calculateEtherSethOutputFromInput cost rE rT = Ok back /\
     amount <= back /\
     dependentValueEffect (Some amount) (Some rE) (Some rT) OUTPUT
       (getSwapType (Some "ETH") (Some "sETH")) (Some "ETH") (Some "sETH")
     = {| effectLog :=
            {| dispatched := [UPDATE_SLIPPAGE (Some (cost, amount));
                              UPDATE_DEPENDENT (Some cost)];
               sent := [] |};
          liquidityError := false |}) /\
  (amount < rE ->
   exists cost back,
     0 < cost /\
     calculateEtherSethOutputFromInput cost rT rE = Ok back /\
     amount <= back /\
     dependentValueEffect (Some amount) (Some rE) (Some rT) OUTPUT
       (getSwapType (Some "sETH") (Some "ETH")) (Some "sETH") (Some "ETH")
     = {| effectLog :=
            {| dispatched := [UPDATE_SLIPPAGE (Some (cost, amount));
                              UPDATE_DEPENDENT (Some cost)];
               sent := [] |};
          liquidityError := false |}).
Proof.
  intros Ha HE HT.
  split; intros Hlt.
  - assert (Hrange : 0 <= amount < rT) by lia.
    destruct (inverse_covers rE rT HE amount Hrange) as [Hpos Hcover].
    eexists; eexists.
    split; [exact Hpos |].
    split; [apply forward_value; lia |].
    split; [apply Z.div_le_lower_bound; [nia | exact Hcover] |].
    unfold dependentValueEffect, dependentValueTry, outputFieldBranch.
    change (getSwapType (Some "ETH") (Some "sETH")) with (Some ETH_TO_SETH).
    rewrite (inverse_value rE rT HE amount Hrange). reflexivity.
  - assert (Hrange : 0 <= amount < rE) by lia.
    destruct (inverse_covers rT rE HT amount Hrange) as [Hpos Hcover].
    eexists; eexists.
    split; [exact Hpos |].
    split; [apply forward_value; lia |].
    split; [apply Z.div_le_lower_bound; [nia | exact Hcover] |].
    unfold dependentValueEffect, dependentValueTry, outputFieldBranch.
    change (getSwapType (Some "sETH") (Some "ETH")) with (Some SETH_TO_ETH).
    rewrite (inverse_value rT rE HT amount Hrange). reflexivity.
Qed.

Lemma direct_output_quote_witness :
  (0 < 100 /\ 0 < 1000 /\ 0 < 2000 /\ 100 < 2000) /\
  exists cost back,
    0 < cost /\
    calculateEtherSethOutputFromInput cost 1000 2000 = Ok back /\
    100 <= back /\
    dependentValueEffect (Some 100) (Some 1000) (Some 2000) OUTPUT
      (getSwapType (Some "ETH") (Some "sETH")) (Some "ETH") (Some "sETH")
    = {| effectLog :=
           {| dispatched := [UPDATE_SLIPPAGE (Some (cost, 100));
                             UPDATE_DEPENDENT (Some cost)];
              sent := [] |};
         liquidityError := false |}.
Proof.
  split; [lia |].
  apply (direct_output_quote 100 1000 2000); lia.
Defined.

(** X8.  A swap that enters or leaves through the pool first prices that
    leg itself and asks the contract for the other one.  Selling ETH for
    another synth [x]: the run stores (amount, sETH bought) as the
    bridging legs and sends one query, [inputPrice(sETH, sETH bought, x)],
    whose answer sets the dependent value.  Buying ETH with another synth
    [x]: it stores (sETH needed, amount) and sends one query,
    [outputPrice(x, sETH, sETH needed)].  Neither dispatches a dependent
    value itself. *)
Theorem bridged_quote_through_pool (amount rE rT : Z) (x : string) :
  0 < amount -> 0 < rE -> 0 < rT ->
  (String.length x <= 31)%nat ->
  (getSwapType (Some "ETH") (Some x) = Some ETH_TO_OTHERSTOKEN ->
   exists bought,
     calculateEtherSethOutputFromInput amount rE rT = Ok bought /\
     dependentValueEffect (Some amount) (Some rE) (Some rT) INPUT
       (getSwapType (Some "ETH") (Some x)) (Some "ETH") (Some x)
     = {| effectLog :=
            {| dispatched := [UPDATE_SLIPPAGE (Some (amount, bought))];
               sent := [{| requestedFor := amount; method := inputPrice;
                           src := "sETH"; dst := x; queried := bought;
                           continuation := thenUpdateDependent |}] |};
          liquidityError := false |}) /\
  (getSwapType (Some x) (Some "ETH") = Some OTHERSTOKEN_TO_ETH ->
   amount < rE ->
   exists needed,
     calculateEtherSethInputFromOutput amount rT rE = Ok needed /\
     dependentValueEffect (Some amount) (Some rE) (Some rT) OUTPUT
       (getSwapType (Some x) (Some "ETH")) (Some x) (Some "ETH")
     = {| effectLog :=
            {| dispatched := [UPDATE_SLIPPAGE (Some (needed, amount))];
               sent := [{| requestedFor := amount; method := outputPrice;
                           src := x; dst := "sETH"; queried := needed;
                           continuation := thenUpdateDependent |}] |};
          liquidityError := false |}).
Proof.
  intros Ha HE HT Hlen.
  split.
  - intros Htype. eexists.
    split; [apply forward_value; lia |].
    rewrite Htype.
    unfold dependentValueEffect, dependentValueTry, inputFieldBranch.
    rewrite (format_short x Hlen).
    rewrite (forward_value rE rT) by lia. reflexivity.
  - intros Htype Hlt.
    assert (Hrange : 0 <= amount < rE) by lia.
    eexists.
    split; [apply (inverse_value rT rE HT amount Hrange) |].
    rewrite Htype.
    unfold dependentValueEffect, dependentValueTry, outputFieldBranch.
    rewrite (format_short x Hlen).
    rewrite (inverse_value rT rE HT amount Hrange). reflexivity.
Qed.

Lemma bridged_quote_through_pool_witness :
  (0 < 5 /\ 0 < 1000 /\ 0 < 2000 /\ (String.length "sUSD" <= 31)%nat /\
   getSwapType (Some "ETH") (Some "sUSD") = Some ETH_TO_OTHERSTOKEN) /\
  exists bought,
    calculateEtherSethOutputFromInput 5 1000 2000 = Ok bought /\
    dependentValueEffect (Some 5) (Some 1000) (Some 2000) INPUT
      (getSwapType (Some "ETH") (Some "sUSD")) (Some "ETH") (Some "sUSD")
    = {| effectLog :=
           {| dispatched := [UPDATE_SLIPPAGE (Some (5, bought))];
              sent := [{| requestedFor := 5; method := inputPrice;
                          src := "sETH"; dst := "sUSD"; queried := bought;
                          continuation := thenUpdateDependent |}] |};
         liquidityError := false |}.
Proof.
  assert (Hlen : (String.length "sUSD" <= 31)%nat) by (cbn; lia).
  assert (Htype : getSwapType (Some "ETH") (Some "sUSD")
                  = Some ETH_TO_OTHERSTOKEN) by reflexivity.
  split; [repeat split; try lia; assumption |].
  destruct (bridged_quote_through_pool 5 1000 2000 "sUSD") as [Hsell _];
    try lia; try exact Hlen.
  exact (Hsell Htype).
Defined.

(** X9.  A swap between two synths is quoted by the contract alone: for
    either independent field and whatever the amount and the reserves
    are, the run clears the stored bridging legs and sends exactly one
    query for the whole swap, whose answer sets the dependent value. *)
Theorem synth_to_synth_quote
    (amount rE rT : Z) (field : Field) (a b : string) :
  (String.length a <= 31)%nat -> (String.length b <= 31)%nat ->
  getSwapType (Some a) (Some b) = Some STOKEN_TO_STOKEN ->
  dependentValueEffect (Some amount) (Some rE) (Some rT) field
    (getSwapType (Some a) (Some b)) (Some a) (Some b)
  = {| effectLog :=
         {| dispatched := [UPDATE_SLIPPAGE None];
            sent := [{| requestedFor := amount;
                        method := if Field_eqb field INPUT
                                  then inputPrice else outputPrice;
                        src := a; dst := b; queried := amount;
                        continuation := thenUpdateDependent |}] |};
       liquidityError := false |}.
Proof.
  intros Ha Hb Htype. rewrite Htype.
  unfold dependentValueEffect, dependentValueTry.
  rewrite (format_short a Ha), (format_short b Hb).
  destruct field; reflexivity.
Qed.

Lemma synth_to_synth_quote_witness :
  ((String.length "sUSD" <= 31)%nat /\ (String.length "sBTC" <= 31)%nat /\
   getSwapType (Some "sUSD") (Some "sBTC") = Some STOKEN_TO_STOKEN) /\
  dependentValueEffect (Some 7) (Some 0) (Some 0) OUTPUT
    (getSwapType (Some "sUSD") (Some "sBTC")) (Some "sUSD") (Some "sBTC")
  = {| effectLog :=
         {| dispatched := [UPDATE_SLIPPAGE None];
            sent := [{| requestedFor := 7;
                        method := if Field_eqb OUTPUT INPUT
                                  then inputPrice else outputPrice;
                        src := "sUSD"; dst := "sBTC"; queried := 7;
                        continuation := thenUpdateDependent |}] |};
       liquidityError := false |}.
Proof.
  assert (Ha : (String.length "sUSD" <= 31)%nat) by (cbn; lia).
  assert (Hb : (String.length "sBTC" <= 31)%nat) by (cbn; lia).
  assert (Ht : getSwapType (Some "sUSD") (Some "sBTC")
               = Some STOKEN_TO_STOKEN) by reflexivity.
  split; [split; [exact Ha | split; [exact Hb | exact Ht]] |].
  exact (synth_to_synth_quote 7 0 0 OUTPUT "sUSD" "sBTC" Ha Hb Ht).
Defined.



(** ** Sessions *)

Lemma fromEffect_recognized (a : Action) : fromEffect a -> recognized a.
Proof. destruct a; cbn; tauto. Qed.

Lemma fromUser_recognized (a : Action) : fromUser a -> recognized a.
Proof. destruct a; cbn; tauto. Qed.

Lemma reduceAll_recognized (actions : list Action) :
  Forall recognized actions ->
  forall s, exists s', reduceAll s actions = Ok s'.
Proof.
  induction 1 as [| a rest Ha _ IH]; intros s.
  - exists s. reflexivity.
  - destruct (recognized_step s a Ha) as (s1 & Hs1).
    destruct (IH s1) as (s' & Hs').
    exists s'. cbn [reduceAll]. rewrite Hs1. exact Hs'.
Qed.

Lemma continuation_dispatches_fromEffect (k : Continuation) (response : Z) :
  Forall fromEffect (runContinuation k response).
Proof.
  destruct k; cbn;
    destruct (BigNumber.lte response 0); try constructor;
    try (destruct (calculateEtherSethOutputFromInput _ _ _));
    try (destruct (calculateEtherSethInputFromOutput _ _ _));
    repeat constructor.
Qed.

Lemma Forall_removeNth {A : Type} (P : A -> Prop) (n : nat) (l : list A) :
  Forall P l -> Forall P (removeNth n l).
Proof.
  intros H. revert n.
  induction H as [| x l Hx Hl IH]; intros [| n]; cbn;
    try constructor; auto.
Qed.

Section SessionFacts.

Variable ext : Externals.

Lemma parseEffect_valid (s : SwapState) (amount : Z) :
  parseEffect ext s = Some amount -> validAmount amount.
Proof.
  unfold parseEffect, validAmount, BigNumber.lte, BigNumber.gte.
  destruct (independentDecimals ext s); [| discriminate].
  destruct (negb _); [| discriminate].
  destruct (parseUnits ext _ _) as [v | e]; [| discriminate].
  destruct (Z.leb_spec v 0); cbn [orb]; [discriminate |].
  destruct (Z.leb_spec MaxUint256 v); cbn [orb]; [discriminate |].
  intros Heq. injection Heq as <-. lia.
Qed.

Lemma rerun_ok (c : Component) :
  amountsValid c ->
  exists c',
    rerunDependentValue ext c = Ok c' /\
    amountsValid c' /\
    independentValueParsed c' = independentValueParsed c.
Proof.
  intros [Hparsed Hflight].
  unfold rerunDependentValue.
  set (run := dependentValueEffect _ _ _ _ _ _ _).
  destruct (effect_log_shape (independentValueParsed c)
              (reserveETH ext) (reserveToken ext)
              (independentField (swapState c)) (swapType ext (swapState c))
              (inputSymbol ext (swapState c)) (outputSymbol ext (swapState c)))
    as (Hd & Hs & _ & _).
  fold run in Hd, Hs.
  assert (Hacts : Forall recognized
                    (dependentValueCleanup ++ dispatched (effectLog run))).
  { apply Forall_app. split.
    - repeat constructor.
    - eapply Forall_impl; [| exact Hd]. apply fromEffect_recognized. }
  destruct (reduceAll_recognized _ Hacts (swapState c)) as (s' & Hs').
  rewrite Hs'. cbn [bind].
  eexists. split; [reflexivity |].
  split; [| reflexivity].
  split; cbn [independentValueParsed inFlight]; [exact Hparsed |].
  apply Forall_app. split; [exact Hflight |].
  eapply Forall_impl; [| exact Hs].
  intros p Hp. apply Hparsed. exact Hp.
Qed.

Lemma settle_ok (old : SwapState) (c : Component) :
  amountsValid c ->
  exists c', settle ext old c = Ok c' /\ amountsValid c'.
Proof.
  intros Hc. unfold settle.
  assert (H1 : exists c1,
             (if calcDepsChanged ext old (swapState c)
                   (independentValueParsed c) (independentValueParsed c) false
              then rerunDependentValue ext c else Ok c) = Ok c1 /\
             amountsValid c1 /\
             independentValueParsed c1 = independentValueParsed c).
  { destruct (calcDepsChanged _ _ _ _ _ _).
    - apply rerun_ok. exact Hc.
    - exists c. split; [reflexivity | split; [exact Hc | reflexivity]]. }
  destruct H1 as (c1 & -> & [Hp1 Hf1] & Hsame). cbn [bind].
  set (newParsed := if parseDepsChanged ext old (swapState c)
                    then parseEffect ext (swapState c)
                    else independentValueParsed c).
  set (c2 := {| swapState := swapState c1;
                independentValueParsed := newParsed;
                inFlight := inFlight c1 |}).
  assert (Hc2 : amountsValid c2).
  { split; cbn [independentValueParsed inFlight c2]; [| exact Hf1].
    intros amount Ha. unfold newParsed in Ha.
    destruct (parseDepsChanged _ _ _).
    - apply (parseEffect_valid _ _ Ha).
    - apply Hc. exact Ha. }
  destruct (calcDepsChanged _ _ _ _ _ _).
  - destruct (rerun_ok c2 Hc2) as (c' & Hc' & Hv & _).
    exists c'. split; assumption.
  - exists c2. split; [reflexivity | exact Hc2].
Qed.

Lemma userDispatch_ok (c : Component) (a : Action) :
  fromUser a -> amountsValid c ->
  exists c', userDispatch ext c a = Ok c' /\ amountsValid c'.
Proof.
  intros Ha Hc. unfold userDispatch.
  destruct (recognized_step (swapState c) a (fromUser_recognized a Ha))
    as (s & ->).
  cbn [bind]. apply settle_ok. exact Hc.
Qed.

Lemma resolve_ok (c : Component) (n : nat) (response : Z) :
  amountsValid c ->
  exists c', resolve c n response = Ok c' /\ amountsValid c'.
Proof.
  intros [Hp Hf]. unfold resolve.
  destruct (nth_error (inFlight c) n) as [p |].
  - assert (Hacts : Forall recognized
                      (runContinuation (continuation p) response)).
    { eapply Forall_impl;
        [| apply continuation_dispatches_fromEffect].
      apply fromEffect_recognized. }
    destruct (reduceAll_recognized _ Hacts (swapState c)) as (s & ->).
    cbn [bind]. eexists. split; [reflexivity |].
    split; cbn [independentValueParsed inFlight]; [exact Hp |].
    apply Forall_removeNth. exact Hf.
  - exists c. split; [reflexivity | split; assumption].
Qed.

Lemma mount_ok (args : InitialArgs) :
  exists c, mount ext args = Ok c /\ amountsValid c.
Proof.
  unfold mount. cbn [getInitialSwapState bind].
  set (s := {| independentValue := _ |}).
  set (c := {| swapState := s;
               independentValueParsed := parseEffect ext s;
               inFlight := [] |}).
  assert (Hc : amountsValid c).
  { split; cbn [independentValueParsed inFlight c]; [| constructor].
    intros amount Ha. apply (parseEffect_valid _ _ Ha). }
  destruct (isSome (parseEffect ext s)).
  - destruct (rerun_ok c Hc) as (c' & Hc' & Hv & _).
    exists c'. split; assumption.
  - exists c. split; [reflexivity | exact Hc].
Qed.

Lemma run_ok (events : list Event) :
  Forall userEvent events ->
  forall c, amountsValid c ->
  exists c', run ext c events = Ok c' /\ amountsValid c'.
Proof.
  induction 1 as [| e rest He _ IH]; intros c Hc.
  - exists c. split; [reflexivity | exact Hc].
  - assert (Hstep : exists c1, step ext c e = Ok c1 /\ amountsValid c1).
    { destruct e as [a | n response]; cbn [step].
      - apply userDispatch_ok; assumption.
      - apply resolve_ok; assumption. }
    destruct Hstep as (c1 & Hc1 & Hv1).
    destruct (IH c1 Hv1) as (c' & Hc' & Hv').
    exists c'. cbn [run]. rewrite Hc1. cbn [bind].
    split; assumption.
Qed.

Lemma play_ok (args : InitialArgs) (events : list Event) :
  Forall userEvent events ->
  exists c, play ext args events = Ok c /\ amountsValid c.
Proof.
  intros Hev. unfold play.
  destruct (mount_ok args) as (c0 & -> & Hv0). cbn [bind].
  apply run_ok; assumption.
Qed.

End SessionFacts.



(** X12.  In every component a session can reach, the parsed
    independent amount, when there is one, lies strictly between 0 and
    MaxUint256, and every query still in flight was sent for such an
    amount. *)
Theorem session_amounts_valid (ext : Externals) (c : Component) :
  reachable ext c -> amountsValid c.
Proof.
  intros (args & events & Hev & Hplay).
  destruct (play_ok ext args events Hev) as (c' & Hc' & Hv).
  rewrite Hplay in Hc'. injection Hc' as <-. exact Hv.
Qed.

Lemma session_amounts_valid_witness :
  exists c, reachable session c /\ amountsValid c.
Proof.
  assert (Hr : exists c, reachable session c).
  { eexists. exists sessionArgs, [User (UPDATE_INDEPENDENT INPUT "5")].
    split; [repeat constructor | vm_compute; reflexivity]. }
  destruct Hr as (c & Hr).
  exists c. split; [exact Hr | exact (session_amounts_valid session c Hr)].
Defined.

(** ** Exchange rates *)

Lemma tenToThe_pos (n : Z) : 0 <= n -> 0 < tenToThe n.
Proof. intros H. unfold tenToThe. apply Z.pow_pos_nonneg; lia. Qed.

Lemma div_tenToThe (a n : Z) :
  0 <= n -> BigNumber.div a (tenToThe n) = Ok (Z.quot a (tenToThe n)).
Proof.
  intros H. unfold BigNumber.div.
  pose proof (tenToThe_pos n H) as Hp.
  destruct (Z.eqb_spec (tenToThe n) 0); [lia | reflexivity].
Qed.

(** The rate in the plain direction, for decimals that are numbers of
    digits. *)
Lemma exchange_rate_plain (i di o do : Z) :
  0 <= di -> 0 <= do -> i <> 0 ->
  getExchangeRate (Some i) (Some di) (Some o) (Some do) false
  = Some (Z.quot (Z.quot (o * tenToThe 18) i * tenToThe di) (tenToThe do)).
Proof.
  intros Hdi Hdo Hi.
  unfold getExchangeRate, BigNumber.mul.
  unfold BigNumber.div at 1.
  destruct (Z.eqb_spec i 0); [contradiction |].
  cbn [bind]. rewrite div_tenToThe by assumption. reflexivity.
Qed.



(** X14.  Inverting a rate is the rate of the opposite pair:
    [getExchangeRate(a, da, b, db, true)] is
    [getExchangeRate(b, db, a, da)].  When both sides have the same
    number of decimals the scaling cancels and the rate of positive
    values is [floor(output * 10^18 / input)]. *)
Theorem exchange_rate_inverted
    (a da b db : option Z) (i o d : Z) :
  getExchangeRate a da b db true = getExchangeRate b db a da false /\
  (0 <= d -> 0 < i -> 0 <= o ->
   getExchangeRate (Some i) (Some d) (Some o) (Some d) false
   = Some (o * 10 ^ 18 / i)).
Proof.
  split.
  - destruct a, da, b, db; reflexivity.
  - intros Hd Hi Ho.
    rewrite exchange_rate_plain by lia.
    pose proof (tenToThe_pos d Hd) as Hp.
    rewrite Z.quot_mul by lia.
    rewrite Z.quot_div_nonneg; [reflexivity | | lia].
    apply Z.mul_nonneg_nonneg; [lia |].
    pose proof (tenToThe_pos 18). lia.
Qed.

Lemma exchange_rate_inverted_witness :
  (0 <= 18 /\ 0 < 1000 /\ 0 <= 2000) /\
  getExchangeRate (Some 1000) (Some 18) (Some 2000) (Some 18) false
  = Some (2000 * 10 ^ 18 / 1000).
Proof.
  split; [lia |].
  apply (exchange_rate_inverted None None None None 1000 2000 18); lia.
Defined.

(** X15.  The market rate is the pool's rate in the direction of the
    swap: sETH per ETH, [floor(reserveToken * 10^18 / reserveETH)], for
    the two swaps that start from ETH, and ETH per sETH,
    [floor(reserveETH * 10^18 / reserveToken)], for the two that end in
    ETH; inverting the first is the second.  It is [undefined] for a
    swap between two synths and without a swap type. *)
Theorem market_rate_direction (rE rT : Z) (invert : bool)
    (reserveETH reserveSEthToken : option Z) :
  (0 < rE -> 0 < rT ->
   getMarketRate (Some ETH_TO_SETH) (Some rE) (Some rT) false
   = Some (rT * 10 ^ 18 / rE) /\
   getMarketRate (Some ETH_TO_OTHERSTOKEN) (Some rE) (Some rT) false
   = Some (rT * 10 ^ 18 / rE) /\
   getMarketRate (Some SETH_TO_ETH) (Some rE) (Some rT) false
   = Some (rE * 10 ^ 18 / rT) /\
   getMarketRate (Some OTHERSTOKEN_TO_ETH) (Some rE) (Some rT) false
   = Some (rE * 10 ^ 18 / rT)) /\
  getMarketRate (Some ETH_TO_SETH) reserveETH reserveSEthToken true
  = getMarketRate (Some SETH_TO_ETH) reserveETH reserveSEthToken false /\
  getMarketRate (Some STOKEN_TO_STOKEN) reserveETH reserveSEthToken invert
  = None /\
  getMarketRate None reserveETH reserveSEthToken invert = None.
Proof.
  split; [| split; [| split; reflexivity]].
  - intros HE HT.
    unfold getMarketRate. cbn [option_eqb SwapType_eqb orb].
    assert (H18 : 0 <= 18) by lia.
    pose proof (tenToThe_pos 18 H18) as Hp.
    rewrite !exchange_rate_plain by lia.
    rewrite !Z.quot_mul by lia.
    rewrite !Z.quot_div_nonneg by nia.
    repeat split; reflexivity.
  - unfold getMarketRate. cbn [option_eqb SwapType_eqb orb].
    destruct reserveETH, reserveSEthToken; reflexivity.
Qed.

Lemma market_rate_direction_witness :
  (0 < 1000 /\ 0 < 2000) /\
  getMarketRate (Some ETH_TO_SETH) (Some 1000) (Some 2000) false
  = Some (2000 * 10 ^ 18 / 1000).
Proof.
  split; [lia |].
  destruct (market_rate_direction 1000 2000 false None None) as [Hrate _].
  apply Hrate; lia.
Defined.

Lemma div_le_cross (n1 d1 n2 d2 : Z) :
  0 < d1 -> 0 < d2 -> 0 <= n1 ->
  n1 * d2 <= n2 * d1 ->
  n1 / d1 <= n2 / d2.
Proof.
  intros H1 H2 Hn Hcross.
  apply Z.div_le_lower_bound; [exact H2 |].
  set (q := n1 / d1).
  assert (Hq : d1 * q <= n1) by (apply Z.mul_div_le; exact H1).
  assert (Hq0 : 0 <= q) by (apply Z.div_pos; assumption).
  apply Z.mul_le_mono_pos_l with (p := d1); [exact H1 |].
  assert (Hstep : d2 * (d1 * q) <= d2 * n1)
    by (apply Z.mul_le_mono_nonneg_l; lia).
  nia.
Qed.

(** What the pool pays never beats its market rate. *)
Lemma forward_rate_below_market (amount Rin Rout : Z) :
  0 < amount -> 0 < Rin -> 0 < Rout ->
  let out := amount * 997 * Rout / (Rin * 1000 + amount * 997) in
  0 <= out /\
  out * 10 ^ 18 / amount <= Rout * 10 ^ 18 / Rin.
Proof.
  intros Ha Hin Hout out.
  assert (Hd : 0 < Rin * 1000 + amount * 997) by lia.
  assert (H0 : 0 <= out) by (apply Z.div_pos; nia).
  assert (Hq : (Rin * 1000 + amount * 997) * out <= amount * 997 * Rout)
    by (apply Z.mul_div_le; exact Hd).
  split; [exact H0 |].
  assert (Hbase : out * Rin <= Rout * amount) by nia.
  apply div_le_cross; lia.
Qed.

(** X16.  The rate quoted for selling a positive amount on the pool
    never exceeds the pool's market rate: for ETH to sETH the rate of
    (amount, forward price) computed by [getExchangeRate] is at most
    [getMarketRate], and likewise for sETH to ETH with the reserves
    exchanged. *)
Theorem quoted_rate_at_most_market (amount rE rT : Z) :
  0 < amount -> 0 < rE -> 0 < rT ->
  (exists out rate market,
     calculateEtherSethOutputFromInput amount rE rT = Ok out /\
     getExchangeRate (Some amount) (Some 18) (Some out) (Some 18) false
     = Some rate /\
     getMarketRate (Some ETH_TO_SETH) (Some rE) (Some rT) false
     = Some market /\
     0 <= rate <= market) /\
  (exists out rate market,
     calculateEtherSethOutputFromInput amount rT rE = Ok out /\
     getExchangeRate (Some amount) (Some 18) (Some out) (Some 18) false
     = Some rate /\
     getMarketRate (Some SETH_TO_ETH) (Some rE) (Some rT) false
     = Some market /\
     0 <= rate <= market).
Proof.
  intros Ha HE HT.
  assert (H18 : 0 <= 18) by lia.
  pose proof (tenToThe_pos 18 H18) as Hp.
  assert (Hpow : 0 < 10 ^ 18) by (apply Z.pow_pos_nonneg; lia).
  split.
  - destruct (forward_rate_below_market amount rE rT Ha HE HT) as [H0 Hle].
    eexists; eexists; eexists.
    split; [apply forward_value; lia |].
    split.
    { rewrite exchange_rate_plain by lia.
      rewrite Z.quot_mul by lia.
      rewrite Z.quot_div_nonneg by (unfold tenToThe; nia).
      reflexivity. }
    split.
    { unfold getMarketRate. cbn [option_eqb SwapType_eqb orb].
      rewrite exchange_rate_plain by lia.
      rewrite Z.quot_mul by lia.
      rewrite Z.quot_div_nonneg by (unfold tenToThe; nia).
      reflexivity. }
    unfold tenToThe.
    split; [apply Z.div_pos; nia | exact Hle].
  - destruct (forward_rate_below_market amount rT rE Ha HT HE) as [H0 Hle].
    eexists; eexists; eexists.
    split; [apply forward_value; lia |].
    split.
    { rewrite exchange_rate_plain by lia.
      rewrite Z.quot_mul by lia.
      rewrite Z.quot_div_nonneg by (unfold tenToThe; nia).
      reflexivity. }
    split.
    { unfold getMarketRate. cbn [option_eqb SwapType_eqb orb].
      rewrite exchange_rate_plain by lia.
      rewrite Z.quot_mul by lia.
      rewrite Z.quot_div_nonneg by (unfold tenToThe; nia).
      reflexivity. }
    unfold tenToThe.
    split; [apply Z.div_pos; nia | exact Hle].
Qed.

Lemma quoted_rate_at_most_market_witness :
  (0 < 1000000 /\ 0 < 1000000000 /\ 0 < 2000000000) /\
  exists out rate market,
    calculateEtherSethOutputFromInput 1000000 1000000000 2000000000
    = Ok out /\
    getExchangeRate (Some 1000000) (Some 18) (Some out) (Some 18) false
    = Some rate /\
    getMarketRate (Some ETH_TO_SETH) (Some 1000000000) (Some 2000000000)
      false = Some market /\
    0 <= rate <= market.
Proof.
  split; [lia |].
  apply (quoted_rate_at_most_market 1000000 1000000000 2000000000); lia.
Defined.

(** ** Slippage warnings *)

(** X17.  The two slippage warnings are never raised together; the
    percentage, when defined, is at least minus the 0.3% tolerance; and
    without a market rate, as for every swap between two synths, or
    without stored bridging legs, the percentage is [undefined] and no
    warning is raised. *)
Theorem slippage_warnings_exclusive
    (p e m : Z) (rate : option Z) (rE rT : option Z) (invert : bool) :
  slippageWarning (Some p) && highSlippageWarning (Some p) = false /\
  (0 < m ->
   exists q,
     percentSlippage (Some e) (Some m) = Ok (Some q) /\
     - (3 * 10 ^ 15) <= q) /\
  percentSlippage rate
    (getMarketRate (Some STOKEN_TO_STOKEN) rE rT invert) = Ok None /\
  percentSlippage None rate = Ok None /\
  slippageWarning None = false /\
  highSlippageWarning None = false.
Proof.
  split.
  { unfold slippageWarning, highSlippageWarning, BigNumber.gte, BigNumber.lt.
    destruct (Z.leb_spec fivePercent p);
      destruct (Z.ltb_spec p twentyPercent);
      destruct (Z.leb_spec twentyPercent p); cbn [andb]; try reflexivity; lia. }
  split.
  { intros Hm.
    unfold percentSlippage, BigNumber.div, BigNumber.mul, BigNumber.sub.
    destruct (Z.eqb_spec m 0); [lia |].
    cbn [bind]. eexists. split; [reflexivity |].
    assert (H18 : 0 <= 18) by lia.
    pose proof (tenToThe_pos 18 H18) as Hp.
    assert (Hq : 0 <= Z.quot (Z.abs (e - m) * tenToThe 18) m).
    { rewrite Z.quot_div_nonneg by nia. apply Z.div_pos; nia. }
    unfold tenToThe in *. lia. }
  split.
  { destruct rate; reflexivity. }
  split; [| split; reflexivity].
  destruct rate; reflexivity.
Qed.

Lemma slippage_warnings_exclusive_witness :
  0 < 2 * 10 ^ 18 /\
  exists q,
    percentSlippage (Some (19 * 10 ^ 17)) (Some (2 * 10 ^ 18))
    = Ok (Some q) /\
    - (3 * 10 ^ 15) <= q.
Proof.
  assert (Hm : 0 < 2 * 10 ^ 18) by (vm_compute; reflexivity).
  split; [exact Hm |].
  destruct (slippage_warnings_exclusive
              0 (19 * 10 ^ 17) (2 * 10 ^ 18) None None None false)
    as (_ & Hq & _).
  exact (Hq Hm).
Defined.

(** X18.  With a token reserve so small against the ETH reserve that the
    market rate rounds to zero (an empty token side, say), pricing a
    positive ETH amount still succeeds and the stored legs give a rate,
    but the slippage percentage divides by the zero market rate and
    throws: it is computed outside any [try]. *)
Theorem percent_slippage_throws_on_zero_market (amount rE rT : Z) :
  0 < amount -> 0 < rE -> 0 <= rT -> rT * 10 ^ 18 < rE ->
  exists out rate,
    calculateEtherSethOutputFromInput amount rE rT = Ok out /\
    getExchangeRate (Some amount) (Some 18) (Some out) (Some 18) false
    = Some rate /\
    getMarketRate (Some ETH_TO_SETH) (Some rE) (Some rT) false = Some 0 /\
    percentSlippage (Some rate)
      (getMarketRate (Some ETH_TO_SETH) (Some rE) (Some rT) false)
    = Throw DivisionByZero.
Proof.
  intros Ha HE HT Hsmall.
  assert (H18 : 0 <= 18) by lia.
  pose proof (tenToThe_pos 18 H18) as Hp.
  assert (Hmarket :
            getMarketRate (Some ETH_TO_SETH) (Some rE) (Some rT) false
            = Some 0).
  { unfold getMarketRate. cbn [option_eqb SwapType_eqb orb].
    rewrite exchange_rate_plain by lia.
    rewrite Z.quot_mul by lia.
    rewrite Z.quot_div_nonneg by (unfold tenToThe; nia).
    unfold tenToThe. rewrite Z.div_small by nia. reflexivity. }
  assert (Hout : exists out,
             calculateEtherSethOutputFromInput amount rE rT = Ok out).
  { unfold calculateEtherSethOutputFromInput, BigNumber.div,
      BigNumber.mul, BigNumber.add.
    destruct (Z.eqb_spec (rE * 1000 + amount * 997) 0); [lia |].
    eexists. reflexivity. }
  destruct Hout as (out & Hout).
  exists out. eexists.
  split; [exact Hout |].
  split; [apply exchange_rate_plain; lia |].
  split; [exact Hmarket |].
  rewrite Hmarket. reflexivity.
Qed.

Lemma percent_slippage_throws_on_zero_market_witness :
  (0 < 5 /\ 0 < 1000 /\ 0 <= 0 /\ 0 * 10 ^ 18 < 1000) /\
  exists out rate,
    calculateEtherSethOutputFromInput 5 1000 0 = Ok out /\
    getExchangeRate (Some 5) (Some 18) (Some out) (Some 18) false
    = Some rate /\
    getMarketRate (Some ETH_TO_SETH) (Some 1000) (Some 0) false = Some 0 /\
    percentSlippage (Some rate)
      (getMarketRate (Some ETH_TO_SETH) (Some 1000) (Some 0) false)
    = Throw DivisionByZero.
Proof.
  split; [lia |].
  apply (percent_slippage_throws_on_zero_market 5 1000 0); lia.
Defined.

(** ** Slippage bounds for any deviation *)

Lemma slippage_bounds_value (value bps : Z) (token : bool) (t a : Z) :
  0 <= value -> bps = (if token then t else a) -> 0 <= bps ->
  calculateSlippageBounds (Some value) token t a
  = Ok (Some {| minimum := Z.max 0 (value - value * bps / 10000);
                maximum := Z.min MaxUint256
                             (value + value * bps / 10000) |}).
Proof.
  intros Hv Hsel Hb.
  unfold calculateSlippageBounds.
  destruct token; subst bps;
    (rewrite (offset_value value _ Hv Hb); cbn [bind];
     unfold BigNumber.lt, BigNumber.gt, BigNumber.sub, BigNumber.add;
     f_equal; f_equal;
     match goal with
     | |- context [value - ?o] => generalize o; intros offset
     end;
     destruct (Z.ltb_spec (value - offset) 0);
     destruct (Z.ltb_spec MaxUint256 (value + offset));
     f_equal; lia).
Qed.

(** X19.  The bounds enclose the value for every non-negative deviation,
    also above 10000 basis points, where the minimum is zero; and a
    larger deviation never narrows them: the minimum does not grow and
    the maximum does not shrink. *)
Theorem slippage_bounds_widen (value bps1 bps2 : Z) (token : bool) :
  0 <= value <= MaxUint256 -> 0 <= bps1 <= bps2 ->
  exists b1 b2,
    calculateSlippageBounds (Some value) token bps1 bps1 = Ok (Some b1) /\
    calculateSlippageBounds (Some value) token bps2 bps2 = Ok (Some b2) /\
    0 <= minimum b2 <= minimum b1 /\
    minimum b1 <= value <= maximum b1 /\
    maximum b1 <= maximum b2 <= MaxUint256 /\
    (10000 <= bps2 -> minimum b2 = 0).
Proof.
  intros Hv Hb.
  assert (Hsel1 : bps1 = (if token then bps1 else bps1))
    by (destruct token; reflexivity).
  assert (Hsel2 : bps2 = (if token then bps2 else bps2))
    by (destruct token; reflexivity).
  eexists; eexists.
  split; [apply (slippage_bounds_value value bps1); lia || exact Hsel1 |].
  split; [apply (slippage_bounds_value value bps2); lia || exact Hsel2 |].
  cbn [minimum maximum].
  assert (H1 : 0 <= value * bps1 / 10000) by (apply Z.div_pos; nia).
  assert (H12 : value * bps1 / 10000 <= value * bps2 / 10000)
    by (apply Z.div_le_mono; nia).
  assert (Hbig : 10000 <= bps2 -> value <= value * bps2 / 10000)
    by (intros Hge; apply Z.div_le_lower_bound; nia).
  repeat split; lia.
Qed.

Lemma slippage_bounds_widen_witness :
  (0 <= 1993006 <= MaxUint256 /\ 0 <= 100 <= 20000) /\
  exists b1 b2,
    calculateSlippageBounds (Some 1993006) false 100 100 = Ok (Some b1) /\
    calculateSlippageBounds (Some 1993006) false 20000 20000
    = Ok (Some b2) /\
    0 <= minimum b2 <= minimum b1 /\
    minimum b1 <= 1993006 <= maximum b1 /\
    maximum b1 <= maximum b2 <= MaxUint256 /\
    (10000 <= 20000 -> minimum b2 = 0).
Proof.
  assert (Hmax : 1993006 <= MaxUint256) by (vm_compute; discriminate).
  split; [lia |].
  apply (slippage_bounds_widen 1993006 100 20000 false); lia.
Defined.



(** ** Balance and allowance *)

(** X21.  The balance and allowance check never throws, whatever is
    still missing; it asks for an unlock only with the token-unlock
    message and never for ETH, and any outcome other than [null] keeps
    the swap invalid.  Once the balance, the amount to spend and (for a
    token) the allowance are known: the balance error is reported
    exactly when the balance is below the amount, before any allowance
    check; there is no error exactly when the balance covers the amount
    and the currency is ETH or the allowance covers it too; the unlock
    is offered exactly when the balance covers the amount and the
    token's allowance does not. *)
Theorem input_validation_outcome
    (field : Field) (parsed maxi bal allowance : option Z)
    (currency : string) (b v : Z)
    (sending : bool) (rate : option Z) (indErr recErr : ErrorState) :
  (exists err unlock,
     inputValidation field parsed maxi bal allowance currency
     = Ok (err, unlock) /\
     (unlock = true ->
      err = errorMessage "unlockTokenCont" /\ currency <> "ETH") /\
     (err <> errorNull -> isValid sending rate err indErr recErr = false))
  /\
  (bal = Some b ->
   (if Field_eqb field INPUT then parsed else maxi) = Some v ->
   currency = "ETH" \/ allowance <> None ->
   exists err unlock,
     inputValidation field parsed maxi bal allowance currency
     = Ok (err, unlock) /\
     (err = errorMessage "insufficientBalance" <-> b < v) /\
     (err = errorNull <->
      v <= b /\
      (currency = "ETH" \/
       match allowance with Some al => v <= al | None => False end)) /\
     (unlock = true <->
      v <= b /\ currency <> "ETH" /\
      match allowance with Some al => al < v | None => False end)).
Proof.
  assert (Hinvalid : forall err,
             err <> errorNull ->
             isValid sending rate err indErr recErr = false).
  { intros err Herr. unfold isValid.
    destruct err; try contradiction;
      destruct sending, (isSome rate); reflexivity. }
  split.
  - unfold inputValidation, ltOrThrow, BigNumber.lt.
    destruct bal as [bal' |];
      [| do 2 eexists; split; [reflexivity |];
         split; [discriminate | apply Hinvalid]].
    destruct (if Field_eqb field INPUT then parsed else maxi) as [calc |];
      [| do 2 eexists; split; [reflexivity |];
         split; [discriminate | apply Hinvalid]].
    destruct allowance as [al |];
      destruct (String.eqb_spec currency "ETH") as [E | E];
      cbn [isSome orb negb];
      try destruct (bal' <? calc); try destruct (al <? calc); cbn [bind];
      do 2 eexists; (split; [reflexivity |]);
      (split;
       [intros Hu; first [discriminate | split; [reflexivity | exact E]]
       | apply Hinvalid]).
  - intros -> Hcalc Hknown.
    unfold inputValidation, ltOrThrow, BigNumber.lt.
    rewrite Hcalc.
    destruct allowance as [al |];
      destruct (String.eqb_spec currency "ETH") as [E | E];
      cbn [isSome orb negb];
      try (exfalso; destruct Hknown as [H | H];
           [exact (E H) | exact (H eq_refl)]);
      destruct (Z.ltb_spec b v); try destruct (Z.ltb_spec al v); cbn [bind];
      do 2 eexists; (split; [reflexivity |]);
      intuition (try congruence; try lia).
Qed.

Lemma input_validation_outcome_witness :
  (Some 10 = Some 10 /\
   (if Field_eqb INPUT INPUT then Some 7 else None) = Some 7 /\
   ("sUSD" = "ETH" \/ Some 3 <> None)) /\
  exists err unlock,
    inputValidation INPUT (Some 7) None (Some 10) (Some 3) "sUSD"
    = Ok (err, unlock) /\
    (err = errorMessage "insufficientBalance" <-> 10 < 7) /\
    (err = errorNull <-> 7 <= 10 /\ ("sUSD" = "ETH" \/ 7 <= 3)) /\
    (unlock = true <-> 7 <= 10 /\ "sUSD" <> "ETH" /\ 3 < 7).
Proof.
  assert (Hknown : "sUSD" = "ETH" \/ Some 3 <> (@None Z))
    by (right; discriminate).
  split; [split; [reflexivity | split; [reflexivity | exact Hknown]] |].
  exact (proj2 (input_validation_outcome INPUT (Some 7) None (Some 10)
                  (Some 3) "sUSD" 10 7 false None errorNull errorNull)
           eq_refl eq_refl Hknown).
Defined.

(** X22.  When the output is the independent field, what must be
    covered is not the quoted input but its slippage maximum,
    [min(MaxUint256, quote + floor(quote * bps / 10000))], which is at
    least the quote: for ETH a balance below that maximum is reported
    insufficient, also when it covers the quote itself, and any other
    balance gives no error. *)
Theorem output_side_checks_maximum
    (quote bps b : Z) (st : option SwapType) (t a : Z)
    (parsed allowance : option Z) :
  0 <= quote <= MaxUint256 ->
  bps = (if option_eqb SwapType_eqb st (Some STOKEN_TO_STOKEN)
         then t else a) ->
  0 <= bps ->
  exists maxi,
    dependentValueMaximum (Some quote) st t a = Ok (Some maxi) /\
    maxi = Z.min MaxUint256 (quote + quote * bps / 10000) /\
    quote <= maxi /\
    inputValidation OUTPUT parsed (Some maxi) (Some b) allowance "ETH"
    = Ok (if b <? maxi
          then (errorMessage "insufficientBalance", false)
          else (errorNull, false)).
Proof.
  intros Hq Hsel Hb.
  unfold dependentValueMaximum.
  rewrite (slippage_bounds_value quote bps _ t a (proj1 Hq) Hsel Hb).
  cbn [bind option_map maximum].
  eexists. split; [reflexivity |]. split; [reflexivity |].
  assert (H1 : 0 <= quote * bps / 10000) by (apply Z.div_pos; nia).
  split; [lia |].
  unfold inputValidation, BigNumber.lt. cbn [Field_eqb].
  change ("ETH" =? "ETH")%string with true.
  rewrite Bool.orb_true_r. cbn [negb].
  destruct (b <? _); reflexivity.
Qed.

Lemma output_side_checks_maximum_witness :
  (0 <= 1000 <= MaxUint256 /\
   100 = (if option_eqb SwapType_eqb (Some ETH_TO_SETH)
               (Some STOKEN_TO_STOKEN) then 100 else 100) /\
   0 <= 100) /\
  exists maxi,
    dependentValueMaximum (Some 1000) (Some ETH_TO_SETH) 100 100
    = Ok (Some maxi) /\
    maxi = Z.min MaxUint256 (1000 + 1000 * 100 / 10000) /\
    1000 <= maxi /\
    inputValidation OUTPUT (Some 5) (Some maxi) (Some 1005) None "ETH"
    = Ok (if 1005 <? maxi
          then (errorMessage "insufficientBalance", false)
          else (errorNull, false)).
Proof.
  assert (Hq : 0 <= 1000 <= MaxUint256)
    by (split; [lia | vm_compute; discriminate]).
  split; [split; [exact Hq | split; [reflexivity | lia]] |].
  apply (output_side_checks_maximum 1000 100 1005 (Some ETH_TO_SETH) 100 100
           (Some 5) None Hq); [reflexivity | lia].
Defined.

(** ** The transaction *)

(** X23.  ETH travels with the transaction exactly when the input symbol
    is ETH: the value of the assembled call is then the amount to spend
    (the parsed amount when the input is independent, the slippage
    maximum of the quote when the output is), and it is zero for every
    other input symbol.  Without a swap type, that is with a currency
    unset, [onSwap] throws. *)
Theorem swap_value_only_for_eth
    (now : Z) (field : Field) (sending : bool) (recipient : string)
    (parsed mini maxi : option Z) (iS oS : option string)
    (call : SwapCall) :
  (onSwap now field (getSwapType iS oS) sending recipient
     parsed mini maxi iS oS = Ok call ->
   callValue call
   = (if strictEq iS "ETH"
      then (if Field_eqb field INPUT then parsed else maxi)
      else Some 0)) /\
  (getSwapType iS oS = None ->
   onSwap now field (getSwapType iS oS) sending recipient
     parsed mini maxi iS oS = Throw TypeError).
Proof.
  split.
  - unfold getSwapType.
    destruct (truthy iS), (truthy oS); cbn [negb orb];
      try (destruct field; discriminate).
    destruct (strictEq iS "ETH"), (strictEq oS "sETH"),
      (strictEq iS "sETH"), (strictEq oS "ETH");
      destruct field; cbn [onSwap Field_eqb];
      try destruct (formatBytes32String iS);
      try destruct (formatBytes32String oS);
      cbn [bind]; intros H; try discriminate;
      injection H as <-; reflexivity.
  - intros ->. destruct field; reflexivity.
Qed.

Lemma swap_value_only_for_eth_witness :
  exists call,
    onSwap 1000 INPUT (getSwapType (Some "ETH") (Some "sUSD")) false ""
      (Some 5) (Some 9) (Some 11) (Some "ETH") (Some "sUSD") = Ok call /\
    callValue call
    = (if strictEq (Some "ETH") "ETH"
       then (if Field_eqb INPUT INPUT then Some 5 else Some 11)
       else Some 0).
Proof.
  eexists. split; [reflexivity |].
  refine (proj1 (swap_value_only_for_eth 1000 INPUT false ""
                   (Some 5) (Some 9) (Some 11) (Some "ETH") (Some "sUSD") _)
            eq_refl).
Defined.

Lemma deadline_window (now : Z) :
  now + 900000 <= 1000 * deadlineFrom now < now + 901000.
Proof.
  unfold deadlineFrom, DEADLINE_FROM_NOW.
  pose proof (Z.div_mod (- now) 1000) as Hdm.
  pose proof (Z.mod_pos_bound (- now) 1000) as Hm.
  lia.
Qed.

(** X24.  Every call [onSwap] assembles ends with the deadline followed
    by the recipient; the deadline is the clock rounded up to a second
    plus fifteen minutes, so between 900 and 901 seconds from now; the
    recipient is the zero address unless the page is the sending one,
    and then it is the address entered. *)
Theorem swap_call_deadline_and_recipient
    (now : Z) (field : Field) (st : option SwapType) (sending : bool)
    (recipient : string) (parsed mini maxi : option Z)
    (iS oS : option string) (call : SwapCall) :
  onSwap now field st sending recipient parsed mini maxi iS oS = Ok call ->
  (exists before,
     callArgs call
     = (before ++ [argDeadline (deadlineFrom now);
                   argAddress (if sending then recipient else AddressZero)])
       %list)
  /\ now + 900000 <= 1000 * deadlineFrom now < now + 901000.
Proof.
  intros H.
  split; [| apply deadline_window].
  destruct field, st as [[] |]; cbn [onSwap] in H;
    try destruct (formatBytes32String iS);
    try destruct (formatBytes32String oS);
    cbn [bind] in H; try discriminate;
    injection H as <-; cbn [callArgs];
    destruct sending;
    match goal with
    | |- exists before, ?l = _ =>
        exists (firstn (length l - 2) l); reflexivity
    end.
Qed.

Lemma swap_call_deadline_and_recipient_witness :
  exists call,
    onSwap 1500 OUTPUT (Some STOKEN_TO_STOKEN) true "0xabc"
      (Some 5) (Some 9) (Some 11) (Some "sUSD") (Some "sBTC") = Ok call /\
    (exists before,
       callArgs call
       = (before ++ [argDeadline (deadlineFrom 1500);
                     argAddress (if true then "0xabc" else AddressZero)])
         %list)
    /\ 1500 + 900000 <= 1000 * deadlineFrom 1500 < 1500 + 901000.
Proof.
  eexists. split; [reflexivity |].
  refine (swap_call_deadline_and_recipient 1500 OUTPUT
            (Some STOKEN_TO_STOKEN) true "0xabc"
            (Some 5) (Some 9) (Some 11) (Some "sUSD") (Some "sBTC") _
            eq_refl).
Defined.

(** ** The classifier, completely *)

Lemma strictEq_Some (x lit : string) :
  strictEq (Some x) lit = true <-> x = lit.
Proof. unfold strictEq. apply String.eqb_eq. Qed.

(** X25.  The classifier answers null exactly when a symbol is unset,
    and otherwise looks only at whether the input is ETH or sETH and the
    output is ETH or sETH: ETH in gives ETH_TO_SETH for sETH out and
    ETH_TO_OTHERSTOKEN for anything else (ETH itself included); sETH in
    and ETH out gives SETH_TO_ETH; any other input with ETH out gives
    OTHERSTOKEN_TO_ETH; every remaining pair, equal symbols included,
    gives STOKEN_TO_STOKEN. *)
Theorem getSwapType_characterized
    (a b : option string) (i o : string) (t : SwapType) :
  (getSwapType a b = None <-> truthy a = false \/ truthy b = false) /\
  (getSwapType (Some i) (Some o) = Some t <->
   i <> "" /\ o <> "" /\
   match t with
   | ETH_TO_SETH => i = "ETH" /\ o = "sETH"
   | ETH_TO_OTHERSTOKEN => i = "ETH" /\ o <> "sETH"
   | SETH_TO_ETH => i = "sETH" /\ o = "ETH"
   | OTHERSTOKEN_TO_ETH => i <> "ETH" /\ i <> "sETH" /\ o = "ETH"
   | STOKEN_TO_STOKEN => i <> "ETH" /\ o <> "ETH"
   end).
Proof.
  split.
  - unfold getSwapType.
    destruct (truthy a), (truthy b); cbn [negb orb];
      try (split; [intros _; auto | intros _; reflexivity]).
    destruct (strictEq a "ETH"), (strictEq b "sETH"),
      (strictEq a "sETH"), (strictEq b "ETH");
      (split; [discriminate | intros [H | H]; discriminate]).
  - unfold getSwapType, truthy, strictEq.
    destruct (String.eqb_spec i ""), (String.eqb_spec o "");
      cbn [negb orb];
      try (split; [discriminate | intros (Hi & Ho & _); contradiction]).
    destruct (String.eqb_spec i "ETH"), (String.eqb_spec o "sETH"),
      (String.eqb_spec i "sETH"), (String.eqb_spec o "ETH");
      subst; try discriminate;
      destruct t;
      (split;
       [intros H; try discriminate; repeat split;
        try assumption; try reflexivity; try discriminate
       | intros (Hi & Ho & Ht); try reflexivity;
         exfalso; intuition congruence]).
Qed.

(** ** Typing an amount *)



Lemma initial_state_shape_witness :
  exists s,
    getInitialSwapState
      (Some {| initialCurrency := None; inputCurrencyURL := None;
               outputCurrencyURL := Some sUSD;
               exactFieldURL := Some "output";
               exactAmountURL := Some "2" |}) = Ok s /\
    isSet (inputCurrency s) = true /\
    dependentValue s = None /\
    independentValue s = "2" /\
    independentField s = OUTPUT.
Proof.
  destruct (initial_state_shape
              {| initialCurrency := None; inputCurrencyURL := None;
                 outputCurrencyURL := Some sUSD;
                 exactFieldURL := Some "output";
                 exactAmountURL := Some "2" |})
    as (s & Hs & Hin & Hdep & _).
  exists s.
  split; [exact Hs |].
  split; [exact Hin |].
  split; [exact Hdep |].
  cbn in Hs. injection Hs as <-. split; reflexivity.
Defined.
